(** * CanvasBoard: tree layout and viewport state of the canvas-tree page

    A shallow embedding of [src/pages/canvas-board/CanvasBoard.tsx].

    - JavaScript numbers are modelled as exact rationals ([Q]); the
      equalities between computed coordinates are therefore stated with
      [==] ([Qeq]) wherever two different computations are compared, and
      with [=] where the code writes the very same expression twice.
      Where rounding decides a property, in the sums that a drag
      accumulates, the handlers are given a second time on binary64
      floats ([Binary64]) and the property is stated there.
    - The module constant [USERS] is an argument of [drawTree], so that the
      layout can be stated for every entity list; [USERS] itself is the
      list of the source.
    - React state ([scale], [offset], [size]) and the two refs
      ([isDraggingRef], [lastPosRef]) are the fields of one [State] record
      and every handler is a function [State -> State]. *)

From Stdlib Require Import List String Bool ZArith QArith Qminmax Qround Lia Lqa.
From Stdlib Require Import Floats.
Import ListNotations.

Module CanvasBoard.

Local Open Scope Q_scope.

(** ** Data *)

(** [interface User { id: string; name: string; parentId?: string }] *)
Record User : Type := mkUser {
  id : string;
  name : string;
  parentId : option string
}.

Definition USERS : list User :=
  [ mkUser "1" "Parent" None;
    mkUser "2" "Child 1" (Some "1"%string);
    mkUser "3" "Child 2" (Some "1"%string);
    mkUser "4" "Child 3" (Some "1"%string) ].

Definition NODE_WIDTH : Q := 160.
Definition NODE_HEIGHT : Q := 70.
Definition VERTICAL_GAP : Q := 120.
Definition HORIZONTAL_GAP : Q := 220.

(** [{ x, y }] and [{ width, height }] objects. *)
Record XY : Type := mkXY { x : Q; y : Q }.
Record Size : Type := mkSize { width : Q; height : Q }.

(** ** JavaScript tests on an optional string *)

(** Truthiness of [u.parentId]: [undefined] and the empty string are falsy,
    every other string is truthy. *)
Definition truthy (o : option string) : bool :=
  match o with
  | None => false
  | Some s => negb (String.eqb s "")
  end.

(** [o === s] for an optional string [o] and a string [s]: [undefined] is
    strictly equal to no string. *)
Definition strict_eq (o : option string) (s : string) : bool :=
  match o with
  | None => false
  | Some t => String.eqb t s
  end.

(** ** Calls of the drawing helpers *)

(** A call [drawUser(ctx, user, x, y)] or [drawLine(ctx, x1, y1, x2, y2)]. *)
Inductive DrawCall : Type :=
| DrawUser (user : User) (ux uy : Q)
| DrawLine (lx1 ly1 lx2 ly2 : Q).

(** [list.forEach((item, index) => ...)], started at [index]; the callback
    returns the calls it makes. *)
Fixpoint forEach_from {A B : Type} (f : A -> Z -> list B) (l : list A)
  (index : Z) : list B :=
  match l with
  | [] => []
  | item :: rest => f item index ++ forEach_from f rest (index + 1)%Z
  end.

Definition forEach {A B : Type} (f : A -> Z -> list B) (l : list A) : list B :=
  forEach_from f l 0%Z.

(** [children.length] as a JavaScript number. *)
Definition length_num {A : Type} (l : list A) : Q :=
  inject_Z (Z.of_nat (List.length l)).

(** ** Tree layout: [drawTree] *)

Definition drawTree (users : list User) (size : Size) : list DrawCall :=
  match find (fun u => negb (truthy (parentId u))) users with
  | None => []
  | Some parent =>
      let children := filter (fun u => strict_eq (parentId u) (id parent)) users in
      let centerX := width size / 2 - NODE_WIDTH / 2 in
      let parentY := 100 in
      let startX :=
        centerX - ((length_num children - 1) * HORIZONTAL_GAP) / 2 in
      DrawUser parent centerX parentY ::
      forEach
        (fun child index =>
           let cx := startX + inject_Z index * HORIZONTAL_GAP in
           let cy := parentY + VERTICAL_GAP in
           [ DrawUser child cx cy;
             DrawLine (centerX + NODE_WIDTH / 2) (parentY + NODE_HEIGHT)
                      (cx + NODE_WIDTH / 2) cy ])
        children
  end.

(** ** The 2D context *)

(** The canvas and context operations that the component issues, in the
    order it issues them. *)
Inductive CtxOp : Type :=
| canvas_width (w : Q)
| canvas_height (h : Q)
| style_width (w : Q)
| style_height (h : Q)
| setTransform (a b c d e f : Q)
| ctx_scale (sx sy : Q)
| translate (tx ty : Q)
| clearRect (rx ry w h : Q)
| fillStyle (colour : string)
| fillRect (rx ry w h : Q)
| font (f : string)
| textAlign (a : string)
| textBaseline (b : string)
| fillText (text : string) (tx ty : Q)
| strokeStyle (colour : string)
| lineWidth (w : Q)
| beginPath
| moveTo (mx my : Q)
| lineTo (lx ly : Q)
| stroke.

Definition drawUser (user : User) (ux uy : Q) : list CtxOp :=
  [ fillStyle "#4f46e5";
    fillRect ux uy NODE_WIDTH NODE_HEIGHT;
    fillStyle "#ffffff";
    font "600 14px sans-serif";
    textAlign "center";
    textBaseline "middle";
    fillText (name user) (ux + NODE_WIDTH / 2) (uy + NODE_HEIGHT / 2) ].

Definition drawLine (x1 y1 x2 y2 : Q) : list CtxOp :=
  [ strokeStyle "#94a3b8";
    lineWidth 2;
    beginPath;
    moveTo x1 y1;
    lineTo x2 y2;
    stroke ].

(** The context operations of one helper call. *)
Definition perform (c : DrawCall) : list CtxOp :=
  match c with
  | DrawUser user ux uy => drawUser user ux uy
  | DrawLine x1 y1 x2 y2 => drawLine x1 y1 x2 y2
  end.

(** ** Viewport state and the handlers *)

Record State : Type := mkState {
  scale : Q;
  offset : XY;
  size : Size;
  isDraggingRef : bool;
  lastPosRef : XY
}.

(** The state of a freshly mounted component in a window of the given
    inner size. *)
Definition initial (innerWidth innerHeight : Q) : State :=
  mkState 1 (mkXY 0 0) (mkSize innerWidth innerHeight) false (mkXY 0 0).

Definition setScale (f : Q -> Q) (s : State) : State :=
  mkState (f (scale s)) (offset s) (size s) (isDraggingRef s) (lastPosRef s).

Definition setOffset (f : XY -> XY) (s : State) : State :=
  mkState (scale s) (f (offset s)) (size s) (isDraggingRef s) (lastPosRef s).

Definition setSize (sz : Size) (s : State) : State :=
  mkState (scale s) (offset s) sz (isDraggingRef s) (lastPosRef s).

Record WheelEvent : Type := mkWheel { shiftKey : bool; deltaY : Q }.
Record MouseEvent : Type := mkMouse { clientX : Q; clientY : Q }.

Definition handleResize (innerWidth innerHeight : Q) (s : State) : State :=
  setSize (mkSize innerWidth innerHeight) s.

Definition handleWheel (e : WheelEvent) (s : State) : State :=
  if shiftKey e then
    setOffset (fun prev => mkXY (x prev - deltaY e) (y prev)) s
  else
    let zoomSpeed := 0.001 in
    setScale (fun prev => Qmin 4 (Qmax 0.25 (prev - deltaY e * zoomSpeed))) s.

Definition handleMouseDown (e : MouseEvent) (s : State) : State :=
  mkState (scale s) (offset s) (size s) true (mkXY (clientX e) (clientY e)).

Definition handleMouseMove (e : MouseEvent) (s : State) : State :=
  if negb (isDraggingRef s) then s
  else
    let dx := clientX e - x (lastPosRef s) in
    let dy := clientY e - y (lastPosRef s) in
    setOffset (fun prev => mkXY (x prev + dx) (y prev + dy))
      (mkState (scale s) (offset s) (size s) (isDraggingRef s)
         (mkXY (clientX e) (clientY e))).

Definition stopDragging (s : State) : State :=
  mkState (scale s) (offset s) (size s) false (lastPosRef s).

(** The events wired to the canvas element and to the window. *)
Inductive Event : Type :=
| onWheel (e : WheelEvent)
| onMouseDown (e : MouseEvent)
| onMouseMove (e : MouseEvent)
| onMouseUp
| onMouseLeave
| onResize (innerWidth innerHeight : Q).

Definition handle (s : State) (ev : Event) : State :=
  match ev with
  | onWheel e => handleWheel e s
  | onMouseDown e => handleMouseDown e s
  | onMouseMove e => handleMouseMove e s
  | onMouseUp => stopDragging s
  | onMouseLeave => stopDragging s
  | onResize w h => handleResize w h s
  end.

(** The host delivers events one at a time; each handler runs to completion. *)
Definition run (s : State) (evs : list Event) : State := fold_left handle evs s.

(** ** The draw pass *)

(** What [draw] reads outside the React state: whether the canvas element
    and its 2D context exist, and [window.devicePixelRatio]. *)
Record Host : Type := mkHost {
  canvas : bool;
  context2d : bool;
  devicePixelRatio : Q
}.

(** [v || 1] on a number: zero is falsy. *)
Definition or_one (v : Q) : Q := if Qeq_bool v 0 then 1 else v.

Definition draw (host : Host) (users : list User) (s : State) : list CtxOp :=
  if negb (canvas host) then []
  else if negb (context2d host) then []
  else
    let dpr := or_one (devicePixelRatio host) in
    [ canvas_width (width (size s) * dpr);
      canvas_height (height (size s) * dpr);
      style_width (width (size s));
      style_height (height (size s));
      setTransform 1 0 0 1 0 0;
      ctx_scale dpr dpr;
      translate (x (offset s)) (y (offset s));
      ctx_scale (scale s) (scale s);
      clearRect (- x (offset s)) (- y (offset s))
        (width (size s)) (height (size s)) ]
    ++ flat_map perform (drawTree users (size s)).

(** ** What the context does with the operations

    The 2D context keeps a current transformation matrix
    [(a, b, c, d, e, f)], which maps the point [(px, py)] of the drawing
    space to [(a*px + c*py + e, b*px + d*py + f)] on the bitmap.
    [scale] and [translate] multiply it on the right; assigning the canvas
    width or height resets the context. [clearRect] clears the image of
    its rectangle under the current matrix.

    The width and the height of a canvas are [unsigned long] attributes:
    the number assigned is truncated towards zero and reduced modulo
    [2^32], and a result above [2147483647] is replaced by the default
    (300 for the width, 150 for the height). *)

Definition truncate (v : Q) : Z :=
  if Qle_bool 0 v then Qfloor v else Qceiling v.

Definition to_unsigned_long (v : Q) : Z := (truncate v mod 2 ^ 32)%Z.

Definition canvas_dim (default : Z) (v : Q) : Q :=
  inject_Z
    (if (to_unsigned_long v <=? 2147483647)%Z then to_unsigned_long v
     else default).

Record Matrix : Type := mkMatrix {
  ma : Q; mb : Q; mc : Q; md : Q; me : Q; mf : Q
}.

Definition identity : Matrix := mkMatrix 1 0 0 1 0 0.

Definition mat_scale (m : Matrix) (sx sy : Q) : Matrix :=
  mkMatrix (ma m * sx) (mb m * sx) (mc m * sy) (md m * sy) (me m) (mf m).

Definition mat_translate (m : Matrix) (tx ty : Q) : Matrix :=
  mkMatrix (ma m) (mb m) (mc m) (md m)
    (ma m * tx + mc m * ty + me m) (mb m * tx + md m * ty + mf m).

Definition apply (m : Matrix) (p : XY) : XY :=
  mkXY (ma m * x p + mc m * y p + me m) (mb m * x p + md m * y p + mf m).

(** A rectangle of the bitmap, by two opposite corners. *)
Record Region : Type := mkRegion { corner0 : XY; corner1 : XY }.

Record Surface : Type := mkSurface {
  bitmap : Size;
  ctm : Matrix;
  cleared : list Region
}.

Definition blank : Surface := mkSurface (mkSize 300 150) identity [].

Definition exec (cv : Surface) (op : CtxOp) : Surface :=
  match op with
  | canvas_width w =>
      mkSurface (mkSize (canvas_dim 300 w) (height (bitmap cv))) identity
        (cleared cv)
  | canvas_height h =>
      mkSurface (mkSize (width (bitmap cv)) (canvas_dim 150 h)) identity
        (cleared cv)
  | setTransform a b c d e f =>
      mkSurface (bitmap cv) (mkMatrix a b c d e f) (cleared cv)
  | ctx_scale sx sy =>
      mkSurface (bitmap cv) (mat_scale (ctm cv) sx sy) (cleared cv)
  | translate tx ty =>
      mkSurface (bitmap cv) (mat_translate (ctm cv) tx ty) (cleared cv)
  | clearRect rx ry w h =>
      mkSurface (bitmap cv) (ctm cv)
        (cleared cv ++
           [mkRegion (apply (ctm cv) (mkXY rx ry))
                     (apply (ctm cv) (mkXY (rx + w) (ry + h)))])
  | _ => cv
  end.

Definition paint (ops : list CtxOp) : Surface := fold_left exec ops blank.

(** The whole bitmap, as a region. *)
Definition whole (sz : Size) : Region :=
  mkRegion (mkXY 0 0) (mkXY (width sz) (height sz)).

Definition XY_eq (p q : XY) : Prop := x p == x q /\ y p == y q.

Definition Region_eq (r t : Region) : Prop :=
  XY_eq (corner0 r) (corner0 t) /\ XY_eq (corner1 r) (corner1 t).

(** The frame clears exactly what is visible: the one cleared region is the
    whole bitmap, in other words the rectangle handed to [clearRect] is the
    part of the drawing space that the matrix maps onto the bitmap. *)
Definition clears_visible (cv : Surface) : Prop :=
  exists r, cleared cv = [r] /\ Region_eq r (whole (bitmap cv)).

(** ** The layout that [drawTree] draws

    The nodes are the [drawUser] calls (a rectangle of [NODE_WIDTH] by
    [NODE_HEIGHT] at the given corner), the edges are the [drawLine] calls. *)

Record LayoutNode : Type := mkNode {
  entity : User;
  node_x : Q;
  node_y : Q;
  node_width : Q;
  node_height : Q
}.

Record LayoutEdge : Type := mkEdge { x1 : Q; y1 : Q; x2 : Q; y2 : Q }.

Definition nodes (calls : list DrawCall) : list LayoutNode :=
  flat_map
    (fun c =>
       match c with
       | DrawUser user ux uy => [mkNode user ux uy NODE_WIDTH NODE_HEIGHT]
       | DrawLine _ _ _ _ => []
       end)
    calls.

Definition edges (calls : list DrawCall) : list LayoutEdge :=
  flat_map
    (fun c =>
       match c with
       | DrawUser _ _ _ => []
       | DrawLine lx1 ly1 lx2 ly2 => [mkEdge lx1 ly1 lx2 ly2]
       end)
    calls.

Definition computeLayout (users : list User) (sz : Size)
  : list LayoutNode * list LayoutEdge :=
  (nodes (drawTree users sz), edges (drawTree users sz)).

(** ** Vocabulary of the specification *)

(** The test by which [drawTree] picks the root, [!u.parentId]: it holds of
    an entity without [parentId] and of one whose [parentId] is empty. *)
Definition rootless (u : User) : bool := negb (truthy (parentId u)).

(** The entity has no [parentId] at all. *)
Definition lacks_parentId (u : User) : bool :=
  match parentId u with
  | None => true
  | Some _ => false
  end.

(** The entity's [parentId] is the id of [root]. *)
Definition references (root u : User) : bool := strict_eq (parentId u) (id root).

(** The edge runs from the bottom-centre of the root node to the top-centre
    of the child node. *)
Definition connects (rootNode : LayoutNode) (e : LayoutEdge)
  (child : LayoutNode) : Prop :=
  x1 e = node_x rootNode + 160 / 2 /\
  y1 e = node_y rootNode + 70 /\
  x2 e = node_x child + 160 / 2 /\
  y2 e = node_y child.

(** One node for [root], then one node per entity of [children], in that
    order, and one edge per child node, from the root node to it. *)
Definition tree_layout (root : User) (children : list User)
  (L : list LayoutNode * list LayoutEdge) : Prop :=
  exists rootNode childNodes,
    fst L = rootNode :: childNodes /\
    entity rootNode = root /\
    map entity childNodes = children /\
    Forall2 (connects rootNode) (snd L) childNodes.

(** The entity [u] has a node, or an edge that ends on a node of it. *)
Definition has_node (u : User) (L : list LayoutNode * list LayoutEdge) : Prop :=
  exists n, In n (fst L) /\ entity n = u.

Definition has_edge (u : User) (L : list LayoutNode * list LayoutEdge) : Prop :=
  exists n e,
    In n (fst L) /\ entity n = u /\ In e (snd L) /\
    x2 e = node_x n + 160 / 2 /\ y2 e = node_y n.

(** [xs] is symmetric around [c]: the k-th value from the left and the k-th
    from the right are mirror images in [c]. *)
Definition symmetric_about (c : Q) (xs : list Q) : Prop :=
  forall k, (k < List.length xs)%nat ->
    nth k xs 0 + nth (List.length xs - 1 - k) xs 0 == 2 * c.

(** Neighbours in [xs] are [gap] apart. *)
Definition evenly_spaced (gap : Q) (xs : list Q) : Prop :=
  forall k, (S k < List.length xs)%nat ->
    nth (S k) xs 0 - nth k xs 0 == gap.

(** A number that a canvas dimension keeps as it is: an integer from 0 to
    2147483647. *)
Definition whole_pixels (v : Q) : Prop :=
  exists n : Z, (0 <= n <= 2147483647)%Z /\ v == inject_Z n.

(** [clamp(v, lo, hi)]. *)
Definition clamp (v lo hi : Q) : Q :=
  if Qlt_le_dec v lo then lo
  else if Qlt_le_dec hi v then hi
  else v.

(** The callback that [drawTree] hands to [forEach]. *)
Definition loop_body (centerX parentY startX : Q) (child : User) (index : Z)
  : list DrawCall :=
  let cx := startX + inject_Z index * HORIZONTAL_GAP in
  let cy := parentY + VERTICAL_GAP in
  [ DrawUser child cx cy;
    DrawLine (centerX + NODE_WIDTH / 2) (parentY + NODE_HEIGHT)
             (cx + NODE_WIDTH / 2) cy ].

(** The x of the root node, and the x of the first child node. *)
Definition root_x (sz : Size) : Q := width sz / 2 - NODE_WIDTH / 2.

Definition start_x (sz : Size) (children : list User) : Q :=
  root_x sz - ((length_num children - 1) * HORIZONTAL_GAP) / 2.

(** The operations that put ink on the bitmap. *)
Definition paints (op : CtxOp) : bool :=
  match op with
  | fillRect _ _ _ _ | fillText _ _ _ | stroke => true
  | _ => false
  end.


(** ** What a frame shows

    The rectangles, texts and line segments that a sequence of context
    operations paints, in drawing-space coordinates. *)









(** ** Kinds of events *)

(** A wheel event that zooms: one without shift. *)
Definition is_zoom (ev : Event) : bool :=
  match ev with
  | onWheel e => negb (shiftKey e)
  | _ => false
  end.

Definition is_resize (ev : Event) : bool :=
  match ev with
  | onResize _ _ => true
  | _ => false
  end.

(** The size that the last resize event of [evs] reports, if there is one. *)
Fixpoint last_resize (evs : list Event) : option Size :=
  match evs with
  | [] => None
  | ev :: rest =>
      match last_resize rest with
      | Some sz => Some sz
      | None =>
          match ev with
          | onResize w h => Some (mkSize w h)
          | _ => None
          end
      end
  end.

(** [n1] is [n2] moved right by [d]; likewise for edges. *)
Definition node_shifted (d : Q) (n1 n2 : LayoutNode) : Prop :=
  entity n1 = entity n2 /\
  node_x n1 == node_x n2 + d /\
  node_y n1 = node_y n2 /\
  node_width n1 = node_width n2 /\
  node_height n1 = node_height n2.

Definition edge_shifted (d : Q) (e1 e2 : LayoutEdge) : Prop :=
  x1 e1 == x1 e2 + d /\ y1 e1 = y1 e2 /\
  x2 e1 == x2 e2 + d /\ y2 e1 = y2 e2.


(** ** The drag handlers on binary64 numbers

    A JavaScript number is a binary64 float and every [+] and [-] of the
    handlers rounds. The module below is the drag part of the component
    once more, on Rocq's primitive floats, which are binary64 with the
    same rounding (to nearest, ties to even). [value] reads a finite
    float as the rational it stands for. *)

Module Binary64.

Record XY : Type := mkXY { x : float; y : float }.
Record Size : Type := mkSize { width : float; height : float }.

Record State : Type := mkState {
  scale : float;
  offset : XY;
  size : Size;
  isDraggingRef : bool;
  lastPosRef : XY
}.

Record MouseEvent : Type := mkMouse { clientX : float; clientY : float }.

Definition setOffset (f : XY -> XY) (s : State) : State :=
  mkState (scale s) (f (offset s)) (size s) (isDraggingRef s) (lastPosRef s).

Definition handleMouseDown (e : MouseEvent) (s : State) : State :=
  mkState (scale s) (offset s) (size s) true (mkXY (clientX e) (clientY e)).

Definition handleMouseMove (e : MouseEvent) (s : State) : State :=
  if negb (isDraggingRef s) then s
  else
    let dx := (clientX e - x (lastPosRef s))%float in
    let dy := (clientY e - y (lastPosRef s))%float in
    setOffset (fun prev => mkXY (x prev + dx)%float (y prev + dy)%float)
      (mkState (scale s) (offset s) (size s) (isDraggingRef s)
         (mkXY (clientX e) (clientY e))).

Definition stopDragging (s : State) : State :=
  mkState (scale s) (offset s) (size s) false (lastPosRef s).

Inductive Event : Type :=
| onMouseDown (e : MouseEvent)
| onMouseMove (e : MouseEvent)
| onMouseUp
| onMouseLeave.

Definition handle (s : State) (ev : Event) : State :=
  match ev with
  | onMouseDown e => handleMouseDown e s
  | onMouseMove e => handleMouseMove e s
  | onMouseUp => stopDragging s
  | onMouseLeave => stopDragging s
  end.

Definition run (s : State) (evs : list Event) : State := fold_left handle evs s.

(** The rational that a finite float stands for; infinities and NaN stand
    for none. *)
Definition value (f : float) : option Q :=
  match Prim2SF f with
  | S754_zero _ => Some 0
  | S754_finite sign m e => Some (inject_Z (cond_Zopp sign (Zpos m)) * 2 ^ e)
  | S754_infinity _ => None
  | S754_nan => None
  end.

Definition has_value (f : float) (q : Q) : Prop :=
  match value f with
  | Some v => v == q
  | None => False
  end.

(** The float subtraction, or addition, of [a] and [b] did not round:
    both are finite and the result stands for the exact difference, or
    sum. *)
Definition sub_exact (a b : float) : Prop :=
  match value a, value b with
  | Some va, Some vb => has_value (a - b)%float (va - vb)
  | _, _ => False
  end.

Definition add_exact (a b : float) : Prop :=
  match value a, value b with
  | Some va, Some vb => has_value (a + b)%float (va + vb)
  | _, _ => False
  end.

(** No operation of [handleMouseMove e s] rounds. *)
Definition move_exact (s : State) (e : MouseEvent) : Prop :=
  sub_exact (clientX e) (x (lastPosRef s)) /\
  add_exact (x (offset s)) (clientX e - x (lastPosRef s))%float /\
  sub_exact (clientY e) (y (lastPosRef s)) /\
  add_exact (y (offset s)) (clientY e - y (lastPosRef s))%float.

(** No operation rounds in the moves [ps], handled one after the other
    from [s]. *)
Fixpoint moves_exact (s : State) (ps : list MouseEvent) : Prop :=
  match ps with
  | [] => True
  | p :: rest => move_exact s p /\ moves_exact (handleMouseMove p s) rest
  end.

End Binary64.

(** * Properties *)

(** ** The calls of the child loop *)

Section ChildLoop.

Variables (centerX parentY startX : Q).

Let body : User -> Z -> list DrawCall := loop_body centerX parentY startX.

Let rootNode (parent : User) : LayoutNode :=
  mkNode parent centerX parentY NODE_WIDTH NODE_HEIGHT.

Lemma loop_entities (children : list User) (index : Z) :
  map entity (nodes (forEach_from body children index)) = children.
Proof.
  revert index; induction children as [|c rest IH]; intros index; simpl.
  - reflexivity.
  - now rewrite IH.
Qed.

Lemma loop_connects (parent : User) (children : list User) (index : Z) :
  Forall2 (connects (rootNode parent))
    (edges (forEach_from body children index))
    (nodes (forEach_from body children index)).
Proof.
  revert index; induction children as [|c rest IH]; intros index; simpl.
  - constructor.
  - constructor; [|apply IH].
    repeat split.
Qed.

Lemma loop_node_x (children : list User) (index : Z) (k : nat) :
  (k < List.length children)%nat ->
  nth k (map node_x (nodes (forEach_from body children index))) 0
  = startX + inject_Z (index + Z.of_nat k) * HORIZONTAL_GAP.
Proof.
  revert index k; induction children as [|c rest IH]; intros index k Hk;
    simpl in *.
  - lia.
  - destruct k as [|k].
    + now rewrite Z.add_0_r.
    + rewrite IH by lia.
      do 3 f_equal. lia.
Qed.

Lemma loop_node_y (children : list User) (index : Z) :
  Forall (fun n => node_y n = parentY + VERTICAL_GAP)
    (nodes (forEach_from body children index)).
Proof.
  revert index; induction children as [|c rest IH]; intros index; simpl.
  - constructor.
  - constructor; [reflexivity | apply IH].
Qed.

Lemma loop_length (children : list User) (index : Z) :
  List.length (nodes (forEach_from body children index))
  = List.length children.
Proof.
  rewrite <- (loop_entities children index) at 2.
  now rewrite length_map.
Qed.

End ChildLoop.

(** ** The layout of [drawTree] *)

Lemma drawTree_no_root (users : list User) (sz : Size) :
  find rootless users = None -> drawTree users sz = [].
Proof.
  intros H. unfold drawTree. fold rootless. now rewrite H.
Qed.

Lemma drawTree_root (users : list User) (sz : Size) (parent : User) :
  find rootless users = Some parent ->
  drawTree users sz =
  DrawUser parent (root_x sz) 100 ::
  forEach_from
    (loop_body (root_x sz) 100 (start_x sz (filter (references parent) users)))
    (filter (references parent) users) 0.
Proof.
  intros H. unfold drawTree. fold rootless. now rewrite H.
Qed.

Lemma find_first {A : Type} (p : A -> bool) (pre post : list A) (a : A) :
  Forall (fun u => p u = false) pre -> p a = true ->
  find p (pre ++ a :: post) = Some a.
Proof.
  intros Hpre Ha. induction Hpre as [|u pre Hu _ IH]; simpl.
  - now rewrite Ha.
  - now rewrite Hu.
Qed.

Lemma find_filter_head {A : Type} (p : A -> bool) (l : list A) :
  find p l = hd_error (filter p l).
Proof.
  induction l as [|a l IH]; simpl; [reflexivity|].
  destruct (p a); [reflexivity | exact IH].
Qed.

Lemma find_none_iff {A : Type} (p : A -> bool) (l : list A) :
  find p l = None <-> Forall (fun u => p u = false) l.
Proof.
  induction l as [|a l IH]; simpl.
  - split; [constructor | reflexivity].
  - destruct (p a) eqn:E.
    + split; [discriminate|]. intros H; inversion H; congruence.
    + rewrite IH. split; [now constructor | intros H; now inversion H].
Qed.

Lemma tree_layout_root (users : list User) (sz : Size) (parent : User) :
  find rootless users = Some parent ->
  tree_layout parent (filter (references parent) users) (computeLayout users sz).
Proof.
  intros H. unfold computeLayout. rewrite (drawTree_root _ _ _ H).
  eexists _, _. cbn [fst snd nodes edges flat_map app].
  split; [reflexivity|]. split; [reflexivity|]. split.
  - apply loop_entities.
  - apply loop_connects.
Qed.

Lemma tree_layout_lengths (root : User) (children : list User)
  (L : list LayoutNode * list LayoutEdge) :
  tree_layout root children L ->
  List.length (fst L) = S (List.length children) /\
  List.length (snd L) = List.length children.
Proof.
  intros (rn & cn & Hn & _ & Hc & He).
  apply Forall2_length in He.
  rewrite Hn, He, <- Hc, length_map. split; reflexivity.
Qed.

Lemma tree_layout_nodes (root : User) (children : list User)
  (L : list LayoutNode * list LayoutEdge) (u : User) :
  tree_layout root children L -> has_node u L -> u = root \/ In u children.
Proof.
  intros (rn & cn & Hn & Hr & Hc & _) (n & Hin & Hu).
  rewrite Hn in Hin. destruct Hin as [<- | Hin].
  - left. congruence.
  - right. rewrite <- Hc, <- Hu. now apply in_map.
Qed.

Lemma has_edge_has_node (u : User) (L : list LayoutNode * list LayoutEdge) :
  has_edge u L -> has_node u L.
Proof.
  intros (n & e & Hin & Hu & _). now exists n.
Qed.

(** ** Claims about the layout *)

(** C1, as amended. For every entity list with exactly one entity whose
    [parentId] is absent or empty, the root, and N entities whose [parentId]
    is the root's id, the layout has the root's node first, then the N child
    nodes in input order, and N edges, each from the root node's
    bottom-centre [(rootX + 160/2, rootY + 70)] to the top-centre
    [(childX + 160/2, childY)] of the corresponding child node. *)
Theorem C1_single_root_layout (users : list User) (sz : Size) (root : User) :
  filter rootless users = [root] ->
  tree_layout root (filter (references root) users) (computeLayout users sz) /\
  List.length (fst (computeLayout users sz))
  = S (List.length (filter (references root) users)) /\
  List.length (snd (computeLayout users sz))
  = List.length (filter (references root) users).
Proof.
  intros H.
  assert (Hf : find rootless users = Some root)
    by now rewrite find_filter_head, H.
  pose proof (tree_layout_root users sz root Hf) as HT.
  split; [exact HT | now apply tree_layout_lengths with (root := root)].
Qed.

Lemma C1_single_root_layout_witness :
  filter rootless USERS = [mkUser "1" "Parent" None] /\
  tree_layout (mkUser "1" "Parent" None)
    (filter (references (mkUser "1" "Parent" None)) USERS)
    (computeLayout USERS (mkSize 1000 800)) /\
  List.length (fst (computeLayout USERS (mkSize 1000 800)))
  = S (List.length (filter (references (mkUser "1" "Parent" None)) USERS)) /\
  List.length (snd (computeLayout USERS (mkSize 1000 800)))
  = List.length (filter (references (mkUser "1" "Parent" None)) USERS).
Proof.
  split; [reflexivity|].
  apply (C1_single_root_layout USERS (mkSize 1000 800) (mkUser "1" "Parent" None)).
  reflexivity.
Defined.

(** C1 as stated fails: here exactly one entity has no [parentId] (id "1")
    and one entity references it (id "3"), but [drawTree] takes the entity
    with the empty [parentId] (id "2") for the root, so the layout is not
    the tree of "1" and its child. *)
Lemma C1_absent_parentId_counterexample :
  filter lacks_parentId
    [ mkUser "2" "Child 1" (Some ""%string); mkUser "1" "Parent" None;
      mkUser "3" "Child 2" (Some "1"%string) ]
  = [mkUser "1" "Parent" None] /\
  filter (references (mkUser "1" "Parent" None))
    [ mkUser "2" "Child 1" (Some ""%string); mkUser "1" "Parent" None;
      mkUser "3" "Child 2" (Some "1"%string) ]
  = [mkUser "3" "Child 2" (Some "1"%string)] /\
  drawTree
    [ mkUser "2" "Child 1" (Some ""%string); mkUser "1" "Parent" None;
      mkUser "3" "Child 2" (Some "1"%string) ] (mkSize 1000 800)
  = [DrawUser (mkUser "2" "Child 1" (Some ""%string)) (1000 / 2 - 160 / 2) 100] /\
  ~ tree_layout (mkUser "1" "Parent" None)
      [mkUser "3" "Child 2" (Some "1"%string)]
      (computeLayout
         [ mkUser "2" "Child 1" (Some ""%string); mkUser "1" "Parent" None;
           mkUser "3" "Child 2" (Some "1"%string) ] (mkSize 1000 800)).
Proof.
  split; [reflexivity|]. split; [reflexivity|]. split; [reflexivity|].
  intros (rn & cn & Hn & Hr & _).
  cbn in Hn. injection Hn as <- _. discriminate Hr.
Qed.

Lemma perform_nil_paints (calls : list DrawCall) :
  calls = [] -> existsb paints (flat_map perform calls) = false.
Proof. intros ->. reflexivity. Qed.

(** C3, as amended. For every entity list in which every entity has a
    non-empty [parentId], the layout has no node and no edge, [drawTree]
    makes no call, and the frame, which is still produced, contains no
    operation that paints. *)
Theorem C3_no_root_empty_layout (users : list User) (host : Host) (s : State) :
  Forall (fun u => rootless u = false) users ->
  computeLayout users (size s) = ([], []) /\
  drawTree users (size s) = [] /\
  existsb paints (draw host users s) = false.
Proof.
  intros H. apply find_none_iff in H.
  pose proof (drawTree_no_root users (size s) H) as HD.
  split; [|split].
  - unfold computeLayout. now rewrite HD.
  - exact HD.
  - unfold draw.
    destruct (canvas host); [|reflexivity].
    destruct (context2d host); [|reflexivity].
    cbn [negb]. rewrite existsb_app, HD. reflexivity.
Qed.

Lemma C3_no_root_empty_layout_witness :
  Forall (fun u => rootless u = false)
    [mkUser "2" "Child 1" (Some "1"%string)] /\
  computeLayout [mkUser "2" "Child 1" (Some "1"%string)]
    (size (initial 1000 800)) = ([], []) /\
  drawTree [mkUser "2" "Child 1" (Some "1"%string)]
    (size (initial 1000 800)) = [] /\
  existsb paints
    (draw (mkHost true true 1) [mkUser "2" "Child 1" (Some "1"%string)]
       (initial 1000 800)) = false.
Proof.
  assert (H : Forall (fun u => rootless u = false)
                [mkUser "2" "Child 1" (Some "1"%string)])
    by (repeat constructor).
  split; [exact H|].
  exact (C3_no_root_empty_layout [mkUser "2" "Child 1" (Some "1"%string)]
           (mkHost true true 1) (initial 1000 800) H).
Defined.

(** C3 as stated fails: the only entity here has a [parentId], the empty
    string, yet [drawTree] takes it for the root and draws its node. *)
Lemma C3_empty_parentId_counterexample :
  Forall (fun u => lacks_parentId u = false)
    [mkUser "1" "Parent" (Some ""%string)] /\
  computeLayout [mkUser "1" "Parent" (Some ""%string)] (mkSize 1000 800)
  = ([mkNode (mkUser "1" "Parent" (Some ""%string)) (1000 / 2 - 160 / 2) 100
        160 70], []) /\
  computeLayout [mkUser "1" "Parent" (Some ""%string)] (mkSize 1000 800)
  <> ([], []).
Proof.
  split; [repeat constructor|]. split; [reflexivity | discriminate].
Qed.

(** C10, as amended. When more than one entity has an absent or empty
    [parentId], the first of them in input order is the root: its node
    comes first and the rest of the layout is the tree of its children.
    Every other entity whose [parentId] is absent or differs from the
    root's id, the remaining entities without [parentId] among them, has no
    node and no edge. *)
Theorem C10_first_rootless_is_root (pre post : list User) (root : User)
  (sz : Size) :
  Forall (fun u => rootless u = false) pre ->
  rootless root = true ->
  Exists (fun u => rootless u = true) post ->
  tree_layout root (filter (references root) (pre ++ root :: post))
    (computeLayout (pre ++ root :: post) sz) /\
  forall u, u <> root -> references root u = false ->
    ~ has_node u (computeLayout (pre ++ root :: post) sz) /\
    ~ has_edge u (computeLayout (pre ++ root :: post) sz).
Proof.
  intros Hpre Hroot _.
  pose proof (find_first rootless pre post root Hpre Hroot) as Hf.
  pose proof (tree_layout_root _ sz _ Hf) as HT.
  split; [exact HT|].
  intros u Hne Href.
  assert (Hno : ~ has_node u (computeLayout (pre ++ root :: post) sz)).
  { intros Hn. destruct (tree_layout_nodes _ _ _ _ HT Hn) as [-> | Hin].
    - now apply Hne.
    - apply filter_In in Hin. destruct Hin as [_ Hin]. congruence. }
  split; [exact Hno|].
  intros He. apply Hno. now apply has_edge_has_node.
Qed.

Lemma C10_first_rootless_is_root_witness :
  Forall (fun u => rootless u = false) [mkUser "2" "Child 1" (Some "1"%string)] /\
  rootless (mkUser "1" "Parent" None) = true /\
  Exists (fun u => rootless u = true) [mkUser "5" "Other" None] /\
  tree_layout (mkUser "1" "Parent" None)
    (filter (references (mkUser "1" "Parent" None))
       ([mkUser "2" "Child 1" (Some "1"%string)] ++
        mkUser "1" "Parent" None :: [mkUser "5" "Other" None]))
    (computeLayout
       ([mkUser "2" "Child 1" (Some "1"%string)] ++
        mkUser "1" "Parent" None :: [mkUser "5" "Other" None])
       (mkSize 1000 800)) /\
  forall u, u <> mkUser "1" "Parent" None ->
    references (mkUser "1" "Parent" None) u = false ->
    ~ has_node u
        (computeLayout
           ([mkUser "2" "Child 1" (Some "1"%string)] ++
            mkUser "1" "Parent" None :: [mkUser "5" "Other" None])
           (mkSize 1000 800)) /\
    ~ has_edge u
        (computeLayout
           ([mkUser "2" "Child 1" (Some "1"%string)] ++
            mkUser "1" "Parent" None :: [mkUser "5" "Other" None])
           (mkSize 1000 800)).
Proof.
  assert (H1 : Forall (fun u => rootless u = false)
                 [mkUser "2" "Child 1" (Some "1"%string)])
    by (repeat constructor).
  assert (H3 : Exists (fun u => rootless u = true) [mkUser "5" "Other" None])
    by (constructor; reflexivity).
  split; [exact H1|]. split; [reflexivity|]. split; [exact H3|].
  exact (C10_first_rootless_is_root [mkUser "2" "Child 1" (Some "1"%string)]
           [mkUser "5" "Other" None] (mkUser "1" "Parent" None)
           (mkSize 1000 800) H1 eq_refl H3).
Defined.

(** C10 as stated fails: two entities have no [parentId] and "1" is the
    first of them, but the root that [drawTree] selects is "0", whose
    [parentId] is the empty string. *)
Lemma C10_first_absent_not_selected_counterexample :
  filter lacks_parentId
    [ mkUser "0" "Zero" (Some ""%string); mkUser "1" "One" None;
      mkUser "2" "Two" None ]
  = [mkUser "1" "One" None; mkUser "2" "Two" None] /\
  fst (computeLayout
         [ mkUser "0" "Zero" (Some ""%string); mkUser "1" "One" None;
           mkUser "2" "Two" None ] (mkSize 1000 800))
  = [mkNode (mkUser "0" "Zero" (Some ""%string)) (1000 / 2 - 160 / 2) 100
       160 70] /\
  ~ has_node (mkUser "1" "One" None)
      (computeLayout
         [ mkUser "0" "Zero" (Some ""%string); mkUser "1" "One" None;
           mkUser "2" "Two" None ] (mkSize 1000 800)).
Proof.
  split; [reflexivity|]. split; [reflexivity|].
  intros (n & Hin & Hn). cbn in Hin.
  destruct Hin as [<- | []]. discriminate Hn.
Qed.

(** ** Positions of the nodes *)

Lemma inject_Z_mirror (n k : nat) :
  (k < n)%nat ->
  inject_Z (Z.of_nat (n - 1 - k))
  == inject_Z (Z.of_nat n) - 1 - inject_Z (Z.of_nat k).
Proof.
  intros Hk.
  replace (Z.of_nat (n - 1 - k))
    with (Z.of_nat n + (- (1) + - Z.of_nat k))%Z by lia.
  rewrite !inject_Z_plus, !inject_Z_opp. change (inject_Z 1) with 1. ring.
Qed.

Lemma inject_Z_next (k : nat) :
  inject_Z (Z.of_nat (S k)) == inject_Z (Z.of_nat k) + 1.
Proof.
  replace (Z.of_nat (S k)) with (Z.of_nat k + 1)%Z by lia.
  rewrite inject_Z_plus. reflexivity.
Qed.

(** The child nodes of a layout with a root: the k-th one is at
    [start_x + k * HORIZONTAL_GAP]. *)
Lemma layout_child_x (users : list User) (sz : Size) (rootNode : LayoutNode)
  (childNodes : list LayoutNode) :
  fst (computeLayout users sz) = rootNode :: childNodes ->
  node_x rootNode = root_x sz /\
  forall k, (k < List.length childNodes)%nat ->
    nth k (map node_x childNodes) 0
    = root_x sz
      - ((inject_Z (Z.of_nat (List.length childNodes)) - 1) * HORIZONTAL_GAP) / 2
      + inject_Z (Z.of_nat k) * HORIZONTAL_GAP.
Proof.
  unfold computeLayout. cbn [fst].
  destruct (find rootless users) as [parent|] eqn:Hf.
  - rewrite (drawTree_root _ _ _ Hf). cbn [nodes flat_map app].
    intros H. injection H as <- <-. split; [reflexivity|].
    intros k Hk. fold (nodes (forEach_from
      (loop_body (root_x sz) 100 (start_x sz (filter (references parent) users)))
      (filter (references parent) users) 0)) in *.
    rewrite loop_length in Hk |- *.
    rewrite loop_node_x by exact Hk. rewrite Z.add_0_l. reflexivity.
  - rewrite (drawTree_no_root _ _ Hf). discriminate.
Qed.

Lemma symmetric_about_shift (c d : Q) (xs : list Q) :
  symmetric_about c xs ->
  symmetric_about (c + d) (map (fun v => v + d) xs).
Proof.
  intros H k Hk. rewrite length_map in Hk |- *.
  rewrite (nth_indep _ 0 (0 + d)) by (rewrite length_map; exact Hk).
  rewrite (nth_indep _ 0 (0 + d) (n := List.length xs - 1 - k))
    by (rewrite length_map; lia).
  rewrite !(map_nth (fun v => v + d)).
  specialize (H k Hk). lra.
Qed.

(** C2, as amended. For the entity list of the scenario and a surface 1000
    wide, the root node is at x = 420, y = 100 and the three child nodes
    are at y = 220 with x-values 200, 420, 640, which start at
    [rootX - (childCount - 1) * 220 / 2] and step by 220; the centres of the
    child nodes are at 280, 500, 720. *)
Theorem C2_scenario_positions (surfaceHeight : Q) :
  map entity (fst (computeLayout USERS (mkSize 1000 surfaceHeight))) = USERS /\
  Forall2 Qeq
    (map node_x (fst (computeLayout USERS (mkSize 1000 surfaceHeight))))
    [420; 200; 420; 640] /\
  Forall2 Qeq
    (map node_y (fst (computeLayout USERS (mkSize 1000 surfaceHeight))))
    [100; 220; 220; 220] /\
  Forall2 Qeq
    (map (fun n => node_x n + node_width n / 2)
       (tl (fst (computeLayout USERS (mkSize 1000 surfaceHeight)))))
    [280; 500; 720] /\
  Forall2 Qeq
    (map node_x (tl (fst (computeLayout USERS (mkSize 1000 surfaceHeight)))))
    [ 420 - (3 - 1) * 220 / 2;
      420 - (3 - 1) * 220 / 2 + 220;
      420 - (3 - 1) * 220 / 2 + 220 + 220 ].
Proof.
  split; [reflexivity|].
  repeat split; cbn; repeat constructor; reflexivity.
Qed.

(** C2 as stated fails: the x-values of the child nodes are not 280, 500,
    720 (those are the centres); the first child node is at x = 200. *)
Lemma C2_child_x_counterexample :
  ~ Forall2 Qeq
      (map node_x (tl (fst (computeLayout USERS (mkSize 1000 800)))))
      [280; 500; 720].
Proof.
  intros H. inversion H as [|a b l l' Hab _]; subst.
  vm_compute in Hab. discriminate Hab.
Qed.

(** C7, as amended. For every entity list and every surface size, the
    x-positions of the child nodes are symmetric around the x-position of
    the root node, their centres are symmetric around the centre x of the
    root node, and the x-positions of consecutive child nodes differ by
    exactly 220. *)
Theorem C7_children_symmetric (users : list User) (sz : Size)
  (rootNode : LayoutNode) (childNodes : list LayoutNode) :
  fst (computeLayout users sz) = rootNode :: childNodes ->
  symmetric_about (node_x rootNode) (map node_x childNodes) /\
  symmetric_about (node_x rootNode + 160 / 2)
    (map (fun v => v + 160 / 2) (map node_x childNodes)) /\
  evenly_spaced 220 (map node_x childNodes).
Proof.
  intros HL. destruct (layout_child_x _ _ _ _ HL) as [Hr Hx].
  assert (Hsym : symmetric_about (node_x rootNode) (map node_x childNodes)).
  { intros k Hk. rewrite length_map in Hk |- *.
    rewrite (Hx k Hk), (Hx (List.length childNodes - 1 - k)%nat) by lia.
    rewrite (inject_Z_mirror _ _ Hk), Hr.
    unfold HORIZONTAL_GAP. field. }
  split; [exact Hsym|]. split.
  - now apply symmetric_about_shift.
  - intros k Hk. rewrite length_map in Hk.
    rewrite (Hx (S k) Hk), (Hx k) by lia.
    rewrite inject_Z_next. unfold HORIZONTAL_GAP. field.
Qed.

Lemma C7_children_symmetric_witness :
  fst (computeLayout USERS (mkSize 1000 800))
  = mkNode (mkUser "1" "Parent" None) (1000 / 2 - 160 / 2) 100 160 70
    :: tl (fst (computeLayout USERS (mkSize 1000 800))) /\
  symmetric_about (1000 / 2 - 160 / 2)
    (map node_x (tl (fst (computeLayout USERS (mkSize 1000 800))))) /\
  symmetric_about (1000 / 2 - 160 / 2 + 160 / 2)
    (map (fun v => v + 160 / 2)
       (map node_x (tl (fst (computeLayout USERS (mkSize 1000 800)))))) /\
  evenly_spaced 220
    (map node_x (tl (fst (computeLayout USERS (mkSize 1000 800))))).
Proof.
  split; [reflexivity|].
  exact (C7_children_symmetric USERS (mkSize 1000 800)
           (mkNode (mkUser "1" "Parent" None) (1000 / 2 - 160 / 2) 100 160 70)
           (tl (fst (computeLayout USERS (mkSize 1000 800)))) eq_refl).
Defined.

(** C7 as stated fails: in the scenario the root node's centre is at
    x = 500, and the outer child nodes are at x = 200 and x = 640, which
    are not mirror images in 500. *)
Lemma C7_root_centre_counterexample :
  exists rootNode childNodes,
    fst (computeLayout USERS (mkSize 1000 800)) = rootNode :: childNodes /\
    node_x rootNode + 160 / 2 == 500 /\
    ~ symmetric_about (node_x rootNode + 160 / 2) (map node_x childNodes).
Proof.
  eexists _, _. split; [reflexivity|]. split; [reflexivity|].
  intros H. specialize (H 0%nat).
  match type of H with
  | ?A -> _ => assert (Hlt : A) by (vm_compute; lia)
  end.
  specialize (H Hlt). vm_compute in H. discriminate H.
Qed.

(** ** Zoom *)

Lemma zoom_lower (v : Q) : 0.25 <= Qmin 4 (Qmax 0.25 v).
Proof.
  apply Q.min_glb; [discriminate | apply Q.le_max_l].
Qed.

Lemma zoom_upper (v : Q) : Qmin 4 (Qmax 0.25 v) <= 4.
Proof. apply Q.le_min_l. Qed.

Lemma zoom_is_clamp (v : Q) : Qmin 4 (Qmax 0.25 v) == clamp v 0.25 4.
Proof.
  unfold clamp.
  destruct (Qlt_le_dec v 0.25) as [Hlo | Hlo].
  - rewrite (Q.max_l 0.25 v) by now apply Qlt_le_weak.
    apply Q.min_r. discriminate.
  - rewrite (Q.max_r 0.25 v) by exact Hlo.
    destruct (Qlt_le_dec 4 v) as [Hhi | Hhi].
    + apply Q.min_l. now apply Qlt_le_weak.
    + now apply Q.min_r.
Qed.

Lemma handle_scale_in_range (s : State) (ev : Event) :
  0.25 <= scale s /\ scale s <= 4 ->
  0.25 <= scale (handle s ev) /\ scale (handle s ev) <= 4.
Proof.
  intros H. destruct ev as [e | e | e | | | w h]; cbn; try exact H.
  - unfold handleWheel. destruct (shiftKey e); cbn; [exact H|].
    split; [apply zoom_lower | apply zoom_upper].
  - unfold handleMouseMove. destruct (isDraggingRef s); cbn; exact H.
Qed.

Lemma run_scale_in_range (evs : list Event) (s : State) :
  0.25 <= scale s /\ scale s <= 4 ->
  0.25 <= scale (run s evs) /\ scale (run s evs) <= 4.
Proof.
  revert s. induction evs as [|ev evs IH]; intros s H; cbn.
  - exact H.
  - apply IH. now apply handle_scale_in_range.
Qed.

(** C4. Starting from a scale in [0.25, 4], the scale is in [0.25, 4]
    after every finite sequence of wheel events, and a wheel event without
    shift sets the scale to [clamp(scale - deltaY * 0.001, 0.25, 4)]. *)
Theorem C4_scale_stays_clamped (s : State) (wheels : list WheelEvent) :
  0.25 <= scale s /\ scale s <= 4 ->
  (0.25 <= scale (run s (map onWheel wheels)) /\
   scale (run s (map onWheel wheels)) <= 4) /\
  forall e, shiftKey e = false ->
    scale (handle s (onWheel e)) = Qmin 4 (Qmax 0.25 (scale s - deltaY e * 0.001)) /\
    scale (handle s (onWheel e)) == clamp (scale s - deltaY e * 0.001) 0.25 4.
Proof.
  intros H. split; [now apply run_scale_in_range|].
  intros e He. cbn. unfold handleWheel. rewrite He. cbn.
  split; [reflexivity | apply zoom_is_clamp].
Qed.

Lemma C4_scale_stays_clamped_witness :
  (0.25 <= scale (initial 1000 800) /\ scale (initial 1000 800) <= 4) /\
  (0.25 <= scale (run (initial 1000 800)
                    (map onWheel [mkWheel false 5000; mkWheel false (-100)])) /\
   scale (run (initial 1000 800)
            (map onWheel [mkWheel false 5000; mkWheel false (-100)])) <= 4) /\
  forall e, shiftKey e = false ->
    scale (handle (initial 1000 800) (onWheel e))
    = Qmin 4 (Qmax 0.25 (scale (initial 1000 800) - deltaY e * 0.001)) /\
    scale (handle (initial 1000 800) (onWheel e))
    == clamp (scale (initial 1000 800) - deltaY e * 0.001) 0.25 4.
Proof.
  assert (H : 0.25 <= scale (initial 1000 800) /\ scale (initial 1000 800) <= 4)
    by (split; discriminate).
  split; [exact H|].
  exact (C4_scale_stays_clamped (initial 1000 800)
           [mkWheel false 5000; mkWheel false (-100)] H).
Defined.

(** ** Pan *)

Lemma last_cons {A : Type} (a d : A) (l : list A) :
  last (a :: l) d = last l a.
Proof.
  revert a d. induction l as [|b l IH]; intros a d; [reflexivity|].
  change (last (a :: b :: l) d) with (last (b :: l) d).
  now rewrite !IH.
Qed.

Lemma has_value_eq (f : float) (q r : Q) :
  Binary64.has_value f q -> q == r -> Binary64.has_value f r.
Proof.
  unfold Binary64.has_value. destruct (Binary64.value f); [|easy].
  intros H E. now rewrite H.
Qed.

Lemma has_value_some (f : float) (v : Q) :
  Binary64.value f = Some v -> Binary64.has_value f v.
Proof.
  unfold Binary64.has_value. intros ->. reflexivity.
Qed.

Lemma has_value_unique (f : float) (q r : Q) :
  Binary64.has_value f q -> Binary64.has_value f r -> q == r.
Proof.
  unfold Binary64.has_value. destruct (Binary64.value f); [|easy].
  intros H1 H2. now rewrite <- H1, <- H2.
Qed.

(** One exact addition: the result stands for the sum of what the
    operands stand for. *)
Lemma add_exact_value (a b : float) (qa qb : Q) :
  Binary64.add_exact a b ->
  Binary64.has_value a qa -> Binary64.has_value b qb ->
  Binary64.has_value (a + b)%float (qa + qb).
Proof.
  unfold Binary64.add_exact, Binary64.has_value at 2 3.
  destruct (Binary64.value a) as [va|]; [|easy].
  destruct (Binary64.value b) as [vb|]; [|easy].
  intros H Ha Hb. apply (has_value_eq _ _ _ H). now rewrite Ha, Hb.
Qed.

Lemma sub_exact_value (a b : float) (qa qb : Q) :
  Binary64.sub_exact a b ->
  Binary64.has_value a qa -> Binary64.has_value b qb ->
  Binary64.has_value (a - b)%float (qa - qb).
Proof.
  unfold Binary64.sub_exact, Binary64.has_value at 2 3.
  destruct (Binary64.value a) as [va|]; [|easy].
  destruct (Binary64.value b) as [vb|]; [|easy].
  intros H Ha Hb. apply (has_value_eq _ _ _ H). now rewrite Ha, Hb.
Qed.

Lemma sub_exact_left (a b : float) :
  Binary64.sub_exact a b -> exists va, Binary64.has_value a va.
Proof.
  unfold Binary64.sub_exact.
  destruct (Binary64.value a) as [va|] eqn:E; [|now destruct 1].
  intros _. exists va. now apply has_value_some.
Qed.

(** While the button is down and no operation rounds, the offset stands
    for its first value plus the way of the pointer since then. *)
Lemma moves_exact_run (ps : list Binary64.MouseEvent) (t : Binary64.State)
  (q : Binary64.MouseEvent) (ox oy ax ay : Q) :
  Binary64.isDraggingRef t = true ->
  Binary64.lastPosRef t
  = Binary64.mkXY (Binary64.clientX q) (Binary64.clientY q) ->
  Binary64.has_value (Binary64.x (Binary64.offset t)) ox ->
  Binary64.has_value (Binary64.y (Binary64.offset t)) oy ->
  Binary64.has_value (Binary64.clientX q) ax ->
  Binary64.has_value (Binary64.clientY q) ay ->
  Binary64.moves_exact t ps ->
  exists bx by_,
    Binary64.has_value (Binary64.clientX (last ps q)) bx /\
    Binary64.has_value (Binary64.clientY (last ps q)) by_ /\
    Binary64.has_value
      (Binary64.x (Binary64.offset
         (Binary64.run t (map Binary64.onMouseMove ps))))
      (ox + (bx - ax)) /\
    Binary64.has_value
      (Binary64.y (Binary64.offset
         (Binary64.run t (map Binary64.onMouseMove ps))))
      (oy + (by_ - ay)) /\
    Binary64.scale (Binary64.run t (map Binary64.onMouseMove ps))
    = Binary64.scale t.
Proof.
  revert t q ox oy ax ay.
  induction ps as [|p ps IH]; intros t q ox oy ax ay Hd Hl Hox Hoy Hax Hay Hex.
  - exists ax, ay. cbn.
    repeat split; try assumption.
    + apply (has_value_eq _ _ _ Hox). ring.
    + apply (has_value_eq _ _ _ Hoy). ring.
  - destruct Hex as [(Hsx & Hpx & Hsy & Hpy) Hrest].
    rewrite Hl in Hsx, Hpx, Hsy, Hpy. cbn in Hsx, Hpx, Hsy, Hpy.
    destruct (sub_exact_left _ _ Hsx) as [vx Hvx].
    destruct (sub_exact_left _ _ Hsy) as [vy Hvy].
    pose proof (sub_exact_value _ _ _ _ Hsx Hvx Hax) as Hdx.
    pose proof (sub_exact_value _ _ _ _ Hsy Hvy Hay) as Hdy.
    pose proof (add_exact_value _ _ _ _ Hpx Hox Hdx) as Hnx.
    pose proof (add_exact_value _ _ _ _ Hpy Hoy Hdy) as Hny.
    assert (Hs : Binary64.handleMouseMove p t
                 = Binary64.mkState (Binary64.scale t)
                     (Binary64.mkXY
                        (Binary64.x (Binary64.offset t)
                         + (Binary64.clientX p - Binary64.clientX q))%float
                        (Binary64.y (Binary64.offset t)
                         + (Binary64.clientY p - Binary64.clientY q))%float)
                     (Binary64.size t) true
                     (Binary64.mkXY (Binary64.clientX p) (Binary64.clientY p))).
    { unfold Binary64.handleMouseMove. rewrite Hd, Hl. reflexivity. }
    change (Binary64.run t (map Binary64.onMouseMove (p :: ps)))
      with (Binary64.run (Binary64.handleMouseMove p t)
              (map Binary64.onMouseMove ps)).
    rewrite last_cons.
    destruct (IH (Binary64.handleMouseMove p t) p
                (ox + (vx - ax)) (oy + (vy - ay)) vx vy)
      as (bx & by_ & Hbx & Hby & Hfx & Hfy & Hsc);
      try (rewrite Hs; cbn; first [reflexivity | assumption]);
      try assumption.
    exists bx, by_. repeat split; try assumption.
    + apply (has_value_eq _ _ _ Hfx). ring.
    + apply (has_value_eq _ _ _ Hfy). ring.
    + rewrite Hsc, Hs. reflexivity.
Qed.

(** C5, as amended. In binary64, a drag, press at [p0], moves through
    [ps], then release or leave, in which no subtraction and no addition
    of the moves rounds, changes the offset by the pointer's net movement,
    from [p0] to the last position, however the movement is split into
    moves; the scale plays no part and is left as it was. *)
Theorem C5_drag_telescopes_when_exact (s : Binary64.State)
  (p0 : Binary64.MouseEvent) (ps : list Binary64.MouseEvent)
  (ox oy ax ay : Q) :
  Binary64.has_value (Binary64.x (Binary64.offset s)) ox ->
  Binary64.has_value (Binary64.y (Binary64.offset s)) oy ->
  Binary64.has_value (Binary64.clientX p0) ax ->
  Binary64.has_value (Binary64.clientY p0) ay ->
  Binary64.moves_exact (Binary64.handleMouseDown p0 s) ps ->
  exists bx by_,
    Binary64.has_value (Binary64.clientX (last ps p0)) bx /\
    Binary64.has_value (Binary64.clientY (last ps p0)) by_ /\
    forall release,
      release = Binary64.onMouseUp \/ release = Binary64.onMouseLeave ->
      Binary64.has_value
        (Binary64.x (Binary64.offset
           (Binary64.run s
              (Binary64.onMouseDown p0
               :: map Binary64.onMouseMove ps ++ [release]))))
        (ox + (bx - ax)) /\
      Binary64.has_value
        (Binary64.y (Binary64.offset
           (Binary64.run s
              (Binary64.onMouseDown p0
               :: map Binary64.onMouseMove ps ++ [release]))))
        (oy + (by_ - ay)) /\
      Binary64.scale
        (Binary64.run s
           (Binary64.onMouseDown p0
            :: map Binary64.onMouseMove ps ++ [release]))
      = Binary64.scale s /\
      Binary64.isDraggingRef
        (Binary64.run s
           (Binary64.onMouseDown p0
            :: map Binary64.onMouseMove ps ++ [release]))
      = false.
Proof.
  intros Hox Hoy Hax Hay Hex.
  destruct (moves_exact_run ps (Binary64.handleMouseDown p0 s) p0
              ox oy ax ay eq_refl eq_refl Hox Hoy Hax Hay Hex)
    as (bx & by_ & Hbx & Hby & Hfx & Hfy & Hsc).
  exists bx, by_. split; [exact Hbx|]. split; [exact Hby|].
  intros release Hrel.
  change (Binary64.run s
            (Binary64.onMouseDown p0
             :: map Binary64.onMouseMove ps ++ [release]))
    with (Binary64.run (Binary64.handleMouseDown p0 s)
            (map Binary64.onMouseMove ps ++ [release])).
  unfold Binary64.run at 1 2 3 4. rewrite fold_left_app. cbn [fold_left].
  fold (Binary64.run (Binary64.handleMouseDown p0 s)
          (map Binary64.onMouseMove ps)).
  assert (Hstop : Binary64.handle
                    (Binary64.run (Binary64.handleMouseDown p0 s)
                       (map Binary64.onMouseMove ps)) release
                  = Binary64.stopDragging
                      (Binary64.run (Binary64.handleMouseDown p0 s)
                         (map Binary64.onMouseMove ps)))
    by (destruct Hrel as [-> | ->]; reflexivity).
  rewrite Hstop. cbn.
  repeat split; assumption.
Qed.

Lemma C5_drag_telescopes_when_exact_witness :
  Binary64.has_value
    (Binary64.x (Binary64.offset
       (Binary64.mkState 0.5 (Binary64.mkXY 10 20) (Binary64.mkSize 1000 800)
          false (Binary64.mkXY 0 0)))) 10 /\
  Binary64.has_value
    (Binary64.y (Binary64.offset
       (Binary64.mkState 0.5 (Binary64.mkXY 10 20) (Binary64.mkSize 1000 800)
          false (Binary64.mkXY 0 0)))) 20 /\
  Binary64.has_value (Binary64.clientX (Binary64.mkMouse 100 100)) 100 /\
  Binary64.has_value (Binary64.clientY (Binary64.mkMouse 100 100)) 100 /\
  Binary64.moves_exact
    (Binary64.handleMouseDown (Binary64.mkMouse 100 100)
       (Binary64.mkState 0.5 (Binary64.mkXY 10 20) (Binary64.mkSize 1000 800)
          false (Binary64.mkXY 0 0)))
    [Binary64.mkMouse 103 101; Binary64.mkMouse 150 90] /\
  exists bx by_,
    Binary64.has_value
      (Binary64.clientX
         (last [Binary64.mkMouse 103 101; Binary64.mkMouse 150 90]
            (Binary64.mkMouse 100 100))) bx /\
    Binary64.has_value
      (Binary64.clientY
         (last [Binary64.mkMouse 103 101; Binary64.mkMouse 150 90]
            (Binary64.mkMouse 100 100))) by_ /\
    forall release,
      release = Binary64.onMouseUp \/ release = Binary64.onMouseLeave ->
      Binary64.has_value
        (Binary64.x (Binary64.offset
           (Binary64.run
              (Binary64.mkState 0.5 (Binary64.mkXY 10 20)
                 (Binary64.mkSize 1000 800) false (Binary64.mkXY 0 0))
              (Binary64.onMouseDown (Binary64.mkMouse 100 100)
               :: map Binary64.onMouseMove
                    [Binary64.mkMouse 103 101; Binary64.mkMouse 150 90]
                  ++ [release]))))
        (10 + (bx - 100)) /\
      Binary64.has_value
        (Binary64.y (Binary64.offset
           (Binary64.run
              (Binary64.mkState 0.5 (Binary64.mkXY 10 20)
                 (Binary64.mkSize 1000 800) false (Binary64.mkXY 0 0))
              (Binary64.onMouseDown (Binary64.mkMouse 100 100)
               :: map Binary64.onMouseMove
                    [Binary64.mkMouse 103 101; Binary64.mkMouse 150 90]
                  ++ [release]))))
        (20 + (by_ - 100)) /\
      Binary64.scale
        (Binary64.run
           (Binary64.mkState 0.5 (Binary64.mkXY 10 20)
              (Binary64.mkSize 1000 800) false (Binary64.mkXY 0 0))
           (Binary64.onMouseDown (Binary64.mkMouse 100 100)
            :: map Binary64.onMouseMove
                 [Binary64.mkMouse 103 101; Binary64.mkMouse 150 90]
               ++ [release]))
      = Binary64.scale
          (Binary64.mkState 0.5 (Binary64.mkXY 10 20)
             (Binary64.mkSize 1000 800) false (Binary64.mkXY 0 0)) /\
      Binary64.isDraggingRef
        (Binary64.run
           (Binary64.mkState 0.5 (Binary64.mkXY 10 20)
              (Binary64.mkSize 1000 800) false (Binary64.mkXY 0 0))
           (Binary64.onMouseDown (Binary64.mkMouse 100 100)
            :: map Binary64.onMouseMove
                 [Binary64.mkMouse 103 101; Binary64.mkMouse 150 90]
               ++ [release]))
      = false.
Proof.
  assert (H1 : Binary64.has_value
                 (Binary64.x (Binary64.offset
                    (Binary64.mkState 0.5 (Binary64.mkXY 10 20)
                       (Binary64.mkSize 1000 800) false (Binary64.mkXY 0 0))))
                 10)
    by (vm_compute; reflexivity).
  assert (H2 : Binary64.has_value
                 (Binary64.y (Binary64.offset
                    (Binary64.mkState 0.5 (Binary64.mkXY 10 20)
                       (Binary64.mkSize 1000 800) false (Binary64.mkXY 0 0))))
                 20)
    by (vm_compute; reflexivity).
  assert (H3 : Binary64.has_value (Binary64.clientX (Binary64.mkMouse 100 100)) 100)
    by (vm_compute; reflexivity).
  assert (H4 : Binary64.has_value (Binary64.clientY (Binary64.mkMouse 100 100)) 100)
    by (vm_compute; reflexivity).
  assert (H5 : Binary64.moves_exact
                 (Binary64.handleMouseDown (Binary64.mkMouse 100 100)
                    (Binary64.mkState 0.5 (Binary64.mkXY 10 20)
                       (Binary64.mkSize 1000 800) false (Binary64.mkXY 0 0)))
                 [Binary64.mkMouse 103 101; Binary64.mkMouse 150 90])
    by (vm_compute; repeat split).
  split; [exact H1|]. split; [exact H2|]. split; [exact H3|].
  split; [exact H4|]. split; [exact H5|].
  exact (C5_drag_telescopes_when_exact
           (Binary64.mkState 0.5 (Binary64.mkXY 10 20)
              (Binary64.mkSize 1000 800) false (Binary64.mkXY 0 0))
           (Binary64.mkMouse 100 100)
           [Binary64.mkMouse 103 101; Binary64.mkMouse 150 90]
           10 20 100 100 H1 H2 H3 H4 H5).
Defined.

(** C5 as stated fails on binary64 numbers. With the offset at 2^53, a
    press at x = 0 and a move to x = 1 leave [offset.x] where it was,
    although the pointer moved by 1. And the split matters: from
    [offset.x = 0.1], a press at x = 0 and moves to 0.2 and then 0.5 give
    0.6000000000000001, while a single move to 0.5 gives 0.6; neither
    stands for 0.1 + 0.5. *)
Lemma C5_binary64_counterexample :
  (Binary64.has_value 9007199254740992%float 9007199254740992 /\
   Binary64.has_value 1%float 1 /\
   Binary64.x (Binary64.offset
     (Binary64.run
        (Binary64.mkState 1 (Binary64.mkXY 9007199254740992 0)
           (Binary64.mkSize 1000 800) false (Binary64.mkXY 0 0))
        [ Binary64.onMouseDown (Binary64.mkMouse 0 0);
          Binary64.onMouseMove (Binary64.mkMouse 1 0);
          Binary64.onMouseUp ]))
   = 9007199254740992%float /\
   ~ Binary64.has_value
       (Binary64.x (Binary64.offset
          (Binary64.run
             (Binary64.mkState 1 (Binary64.mkXY 9007199254740992 0)
                (Binary64.mkSize 1000 800) false (Binary64.mkXY 0 0))
             [ Binary64.onMouseDown (Binary64.mkMouse 0 0);
               Binary64.onMouseMove (Binary64.mkMouse 1 0);
               Binary64.onMouseUp ])))
       (9007199254740992 + (1 - 0))) /\
  (Binary64.x (Binary64.offset
     (Binary64.run
        (Binary64.mkState 1 (Binary64.mkXY 0x1.999999999999ap-4 0)
           (Binary64.mkSize 1000 800) false (Binary64.mkXY 0 0))
        [ Binary64.onMouseDown (Binary64.mkMouse 0 0);
          Binary64.onMouseMove (Binary64.mkMouse 0x1.999999999999ap-3 0);
          Binary64.onMouseMove (Binary64.mkMouse 0.5 0);
          Binary64.onMouseUp ]))
   = 0x1.3333333333334p-1%float /\
   Binary64.x (Binary64.offset
     (Binary64.run
        (Binary64.mkState 1 (Binary64.mkXY 0x1.999999999999ap-4 0)
           (Binary64.mkSize 1000 800) false (Binary64.mkXY 0 0))
        [ Binary64.onMouseDown (Binary64.mkMouse 0 0);
          Binary64.onMouseMove (Binary64.mkMouse 0.5 0);
          Binary64.onMouseUp ]))
   = 0x1.3333333333333p-1%float /\
   PrimFloat.eqb 0x1.3333333333334p-1 0x1.3333333333333p-1 = false /\
   Binary64.has_value 0x1.999999999999ap-4%float
     (3602879701896397 # 36028797018963968) /\
   Binary64.has_value 0.5%float (1 # 2) /\
   ~ Binary64.has_value 0x1.3333333333334p-1%float
       ((3602879701896397 # 36028797018963968) + ((1 # 2) - 0)) /\
   ~ Binary64.has_value 0x1.3333333333333p-1%float
       ((3602879701896397 # 36028797018963968) + ((1 # 2) - 0))).
Proof.
  split.
  - split; [vm_compute; reflexivity|]. split; [vm_compute; reflexivity|].
    split; [reflexivity|].
    vm_compute. intros H. discriminate H.
  - split; [reflexivity|]. split; [reflexivity|]. split; [reflexivity|].
    split; [vm_compute; reflexivity|]. split; [vm_compute; reflexivity|].
    split; vm_compute; intros H; discriminate H.
Qed.


(** C9. When no drag is in progress, the flag is down, as it is after a
    release or after the pointer has left, a pointer move leaves the whole
    state as it is: offset, scale, size and anchor. *)
Theorem C9_idle_move_is_noop (s : State) (e : MouseEvent) :
  isDraggingRef s = false \/
  (exists t, s = handle t onMouseUp) \/
  (exists t, s = handle t onMouseLeave) ->
  handle s (onMouseMove e) = s.
Proof.
  intros H.
  assert (Hd : isDraggingRef s = false).
  { destruct H as [H | [[t ->] | [t ->]]]; [exact H | reflexivity | reflexivity]. }
  cbn. unfold handleMouseMove. now rewrite Hd.
Qed.

Lemma C9_idle_move_is_noop_witness :
  (isDraggingRef (handle (handle (initial 1000 800) (onMouseDown (mkMouse 10 20)))
                    onMouseUp) = false \/
   (exists t, handle (handle (initial 1000 800) (onMouseDown (mkMouse 10 20)))
                onMouseUp = handle t onMouseUp) \/
   (exists t, handle (handle (initial 1000 800) (onMouseDown (mkMouse 10 20)))
                onMouseUp = handle t onMouseLeave)) /\
  handle (handle (handle (initial 1000 800) (onMouseDown (mkMouse 10 20)))
            onMouseUp) (onMouseMove (mkMouse 30 40))
  = handle (handle (initial 1000 800) (onMouseDown (mkMouse 10 20))) onMouseUp.
Proof.
  assert (H : isDraggingRef
                (handle (handle (initial 1000 800) (onMouseDown (mkMouse 10 20)))
                   onMouseUp) = false \/
              (exists t, handle (handle (initial 1000 800)
                                   (onMouseDown (mkMouse 10 20))) onMouseUp
                         = handle t onMouseUp) \/
              (exists t, handle (handle (initial 1000 800)
                                   (onMouseDown (mkMouse 10 20))) onMouseUp
                         = handle t onMouseLeave))
    by (left; reflexivity).
  split; [exact H|].
  exact (C9_idle_move_is_noop _ (mkMouse 30 40) H).
Defined.

(** ** The frame *)

Lemma exec_perform (calls : list DrawCall) (cv : Surface) :
  fold_left exec (flat_map perform calls) cv = cv.
Proof.
  revert cv. induction calls as [|c calls IH]; intros cv; [reflexivity|].
  cbn [flat_map]. rewrite fold_left_app, IH.
  destruct c; reflexivity.
Qed.

Lemma canvas_dim_whole (default : Z) (v : Q) :
  whole_pixels v -> canvas_dim default v == v.
Proof.
  intros (n & Hn & Hv). unfold canvas_dim, to_unsigned_long, truncate.
  assert (Hle : Qle_bool 0 v = true).
  { apply Qle_bool_iff. rewrite Hv. change 0 with (inject_Z 0).
    rewrite <- Zle_Qle. lia. }
  assert (Hf : Qfloor v = n)
    by (rewrite (Qfloor_comp _ _ Hv); apply Qfloor_Z).
  rewrite Hle, Hf, Z.mod_small by lia.
  destruct (Z.leb_spec n 2147483647); [now symmetry | lia].
Qed.

Example canvas_dim_truncates :
  canvas_dim 300 (1001 * 1.5) = 1501 /\ canvas_dim 150 (801 * 1.5) = 1201.
Proof. split; reflexivity. Qed.

(** What one frame leaves on a surface whose canvas and context exist:
    the bitmap has the device size, truncated, the matrix is
    [dpr * translate offset * scale], and the one cleared region is the
    image of [(-offset.x, -offset.y, width, height)] under that matrix. *)
Lemma paint_draw (host : Host) (users : list User) (s : State) :
  canvas host = true -> context2d host = true ->
  paint (draw host users s)
  = let dpr := or_one (devicePixelRatio host) in
    let m :=
      mat_scale
        (mat_translate (mat_scale identity dpr dpr)
           (x (offset s)) (y (offset s)))
        (scale s) (scale s) in
    mkSurface
      (mkSize (canvas_dim 300 (width (size s) * dpr))
              (canvas_dim 150 (height (size s) * dpr))) m
      [mkRegion
         (apply m (mkXY (- x (offset s)) (- y (offset s))))
         (apply m (mkXY (- x (offset s) + width (size s))
                        (- y (offset s) + height (size s))))].
Proof.
  intros Hc Hx. unfold paint, draw. rewrite Hc, Hx. cbn [negb].
  rewrite fold_left_app, exec_perform. reflexivity.
Qed.

(** At scale 1 the cleared rectangle is the visible one, when the device
    size is a whole number of pixels each way. *)
Lemma draw_clears_visible_unzoomed (host : Host) (users : list User)
  (s : State) :
  canvas host = true -> context2d host = true ->
  whole_pixels (width (size s) * or_one (devicePixelRatio host)) ->
  whole_pixels (height (size s) * or_one (devicePixelRatio host)) ->
  scale s == 1 ->
  clears_visible (paint (draw host users s)).
Proof.
  intros Hc Hx Hw Hh Hs. rewrite (paint_draw _ _ _ Hc Hx). cbn zeta.
  eexists. split; [reflexivity|].
  unfold Region_eq, XY_eq. cbn.
  rewrite (canvas_dim_whole 300 _ Hw), (canvas_dim_whole 150 _ Hh), Hs.
  repeat split; ring.
Qed.

(** C8 fails on the code. After a zoom out to 0.5 and a pan to the right
    by 100, on a surface of 1000 by 800 at pixel ratio 1, the frame clears
    the region from (50, 0) to (550, 400) of the bitmap, not the bitmap
    from (0, 0) to (1000, 800): the rectangle handed to [clearRect]
    accounts for the offset but not for the scale. *)
Theorem C8_clear_ignores_scale :
  scale (run (initial 1000 800)
           [onWheel (mkWheel false 500); onWheel (mkWheel true (-100))])
  == 0.5 /\
  XY_eq (offset (run (initial 1000 800)
                   [onWheel (mkWheel false 500); onWheel (mkWheel true (-100))]))
    (mkXY 100 0) /\
  (exists r,
     cleared
       (paint (draw (mkHost true true 1) USERS
                 (run (initial 1000 800)
                    [onWheel (mkWheel false 500);
                     onWheel (mkWheel true (-100))]))) = [r] /\
     Region_eq r (mkRegion (mkXY 50 0) (mkXY 550 400))) /\
  Region_eq
    (whole (bitmap
       (paint (draw (mkHost true true 1) USERS
                 (run (initial 1000 800)
                    [onWheel (mkWheel false 500);
                     onWheel (mkWheel true (-100))])))))
    (mkRegion (mkXY 0 0) (mkXY 1000 800)) /\
  ~ clears_visible
      (paint (draw (mkHost true true 1) USERS
                (run (initial 1000 800)
                   [onWheel (mkWheel false 500);
                    onWheel (mkWheel true (-100))]))).
Proof.
  split; [reflexivity|]. split; [split; reflexivity|]. split; [|split].
  - eexists. split; [reflexivity|]. repeat split.
  - repeat split.
  - intros (r & Hc & Hr).
    vm_compute in Hc. injection Hc as <-.
    destruct Hr as [[H _] _]. vm_compute in H. discriminate H.
Qed.

(** * Further properties of the code *)

(** ** The draw pass *)

(** [draw] issues no operation exactly when the canvas element or its 2D
    context is missing; otherwise the frame is set up even when there is
    nothing to draw. *)
Theorem draw_empty_iff_unavailable (host : Host) (users : list User)
  (s : State) :
  draw host users s = [] <-> canvas host = false \/ context2d host = false.
Proof.
  unfold draw. destruct (canvas host), (context2d host); cbn [negb];
    split; intros H; try reflexivity; try discriminate H;
    try (now left); try (now right).
  destruct H as [H | H]; discriminate H.
Qed.

Lemma or_one_zero (v : Q) : v == 0 -> or_one v = 1.
Proof.
  intros H. unfold or_one.
  now apply Qeq_bool_iff in H as ->.
Qed.

Lemma or_one_nonzero (v : Q) : ~ or_one v == 0.
Proof.
  unfold or_one. destruct (Qeq_bool v 0) eqn:E.
  - discriminate.
  - intros H. apply Qeq_bool_iff in H. congruence.
Qed.

(** A device pixel ratio of zero counts as 1: the frame is the one drawn
    at ratio 1. *)
Theorem draw_zero_ratio_is_one (host : Host) (users : list User) (s : State) :
  devicePixelRatio host == 0 ->
  draw host users s
  = draw (mkHost (canvas host) (context2d host) 1) users s.
Proof.
  intros H. unfold draw. cbn [canvas context2d devicePixelRatio].
  rewrite (or_one_zero _ H). reflexivity.
Qed.

Lemma draw_zero_ratio_is_one_witness :
  devicePixelRatio (mkHost true true 0) == 0 /\
  draw (mkHost true true 0) USERS (initial 1000 800)
  = draw (mkHost (canvas (mkHost true true 0)) (context2d (mkHost true true 0)) 1)
      USERS (initial 1000 800).
Proof.
  split; [reflexivity|].
  apply (draw_zero_ratio_is_one (mkHost true true 0) USERS (initial 1000 800)).
  reflexivity.
Defined.



(** On a surface of non-zero width whose device size is a whole number of
    pixels each way, a frame clears exactly the visible rectangle if and
    only if the scale is 1. *)
Theorem draw_clears_visible_iff (host : Host) (users : list User) (s : State) :
  canvas host = true -> context2d host = true ->
  ~ width (size s) == 0 ->
  whole_pixels (width (size s) * or_one (devicePixelRatio host)) ->
  whole_pixels (height (size s) * or_one (devicePixelRatio host)) ->
  clears_visible (paint (draw host users s)) <-> scale s == 1.
Proof.
  intros Hc Hx Hw Hpw Hph. split.
  - intros (r & Hr & Heq). rewrite (paint_draw _ _ _ Hc Hx) in Hr, Heq.
    cbn zeta in Hr, Heq. cbn [cleared bitmap] in Hr, Heq.
    injection Hr as <-.
    destruct Heq as [[H0 _] [H1 _]]. cbn in H0, H1.
    rewrite (canvas_dim_whole 300 _ Hpw) in H1.
    pose proof (or_one_nonzero (devicePixelRatio host)) as Hd.
    set (dpr := or_one (devicePixelRatio host)) in *.
    assert (E : dpr * width (size s) * (scale s - 1) == 0).
    { transitivity
        ((1 * dpr * scale s * (- x (offset s) + width (size s))
          + 0 * dpr * scale s * (- y (offset s) + height (size s))
          + (1 * dpr * x (offset s) + 0 * dpr * y (offset s) + 0))
         - (1 * dpr * scale s * - x (offset s)
            + 0 * dpr * scale s * - y (offset s)
            + (1 * dpr * x (offset s) + 0 * dpr * y (offset s) + 0))
         - width (size s) * dpr); [ring|].
      rewrite H0, H1. ring. }
    apply Qmult_integral in E. destruct E as [E | E]; [|lra].
    apply Qmult_integral in E. destruct E as [E | E]; contradiction.
  - now apply draw_clears_visible_unzoomed.
Qed.

Lemma draw_clears_visible_iff_witness :
  canvas (mkHost true true 2) = true /\
  context2d (mkHost true true 2) = true /\
  ~ width (size (initial 1000 800)) == 0 /\
  whole_pixels (width (size (initial 1000 800))
                * or_one (devicePixelRatio (mkHost true true 2))) /\
  whole_pixels (height (size (initial 1000 800))
                * or_one (devicePixelRatio (mkHost true true 2))) /\
  (clears_visible (paint (draw (mkHost true true 2) USERS (initial 1000 800)))
   <-> scale (initial 1000 800) == 1).
Proof.
  assert (Hw : ~ width (size (initial 1000 800)) == 0)
    by (intros H; discriminate H).
  assert (Hpw : whole_pixels (width (size (initial 1000 800))
                              * or_one (devicePixelRatio (mkHost true true 2))))
    by (exists 2000%Z; split; [lia | reflexivity]).
  assert (Hph : whole_pixels (height (size (initial 1000 800))
                              * or_one (devicePixelRatio (mkHost true true 2))))
    by (exists 1600%Z; split; [lia | reflexivity]).
  split; [reflexivity|]. split; [reflexivity|]. split; [exact Hw|].
  split; [exact Hpw|]. split; [exact Hph|].
  exact (draw_clears_visible_iff (mkHost true true 2) USERS (initial 1000 800)
           eq_refl eq_refl Hw Hpw Hph).
Defined.






(** ** More on the layout *)

(** The shape of a layout that has a node: the first node is the root's,
    at [(root_x, 100)], and the others are the nodes of the child loop. *)
Lemma layout_root_node (users : list User) (sz : Size) (rootNode : LayoutNode)
  (childNodes : list LayoutNode) :
  fst (computeLayout users sz) = rootNode :: childNodes ->
  exists parent,
    find rootless users = Some parent /\
    rootNode = mkNode parent (root_x sz) 100 NODE_WIDTH NODE_HEIGHT /\
    childNodes
    = nodes (forEach_from
               (loop_body (root_x sz) 100
                  (start_x sz (filter (references parent) users)))
               (filter (references parent) users) 0).
Proof.
  unfold computeLayout. cbn [fst].
  destruct (find rootless users) as [parent|] eqn:Hf.
  - rewrite (drawTree_root _ _ _ Hf). cbn [nodes flat_map app].
    intros H. injection H as <- <-. now exists parent.
  - rewrite (drawTree_no_root _ _ Hf). discriminate.
Qed.

Lemma loop_nodes_size (centerX parentY startX : Q) (children : list User)
  (index : Z) :
  Forall (fun n => node_width n = NODE_WIDTH /\ node_height n = NODE_HEIGHT)
    (nodes (forEach_from (loop_body centerX parentY startX) children index)).
Proof.
  revert index; induction children as [|c rest IH]; intros index; simpl.
  - constructor.
  - constructor; [split; reflexivity | apply IH].
Qed.

(** The root node is centred horizontally on the surface, at y = 100; the
    child nodes are all at y = 220; every node is 160 wide and 70 high. *)
Theorem root_centred_children_level (users : list User) (sz : Size)
  (rootNode : LayoutNode) (childNodes : list LayoutNode) :
  fst (computeLayout users sz) = rootNode :: childNodes ->
  node_x rootNode + node_width rootNode / 2 == width sz / 2 /\
  node_y rootNode = 100 /\
  Forall (fun n => node_y n == 220) childNodes /\
  Forall (fun n => node_width n = 160 /\ node_height n = 70)
    (rootNode :: childNodes).
Proof.
  intros HL. destruct (layout_root_node _ _ _ _ HL) as (parent & _ & -> & ->).
  split; [|split; [|split]].
  - cbn. unfold root_x, NODE_WIDTH. field.
  - reflexivity.
  - eapply Forall_impl; [|apply loop_node_y].
    intros n Hn. rewrite Hn. reflexivity.
  - constructor; [split; reflexivity | apply loop_nodes_size].
Qed.

Lemma root_centred_children_level_witness :
  fst (computeLayout USERS (mkSize 1000 800))
  = mkNode (mkUser "1" "Parent" None) (1000 / 2 - 160 / 2) 100 160 70
    :: tl (fst (computeLayout USERS (mkSize 1000 800))) /\
  node_x (mkNode (mkUser "1" "Parent" None) (1000 / 2 - 160 / 2) 100 160 70)
  + node_width (mkNode (mkUser "1" "Parent" None) (1000 / 2 - 160 / 2) 100 160 70) / 2
  == width (mkSize 1000 800) / 2 /\
  node_y (mkNode (mkUser "1" "Parent" None) (1000 / 2 - 160 / 2) 100 160 70) = 100 /\
  Forall (fun n => node_y n == 220)
    (tl (fst (computeLayout USERS (mkSize 1000 800)))) /\
  Forall (fun n => node_width n = 160 /\ node_height n = 70)
    (mkNode (mkUser "1" "Parent" None) (1000 / 2 - 160 / 2) 100 160 70
     :: tl (fst (computeLayout USERS (mkSize 1000 800)))).
Proof.
  split; [reflexivity|].
  exact (root_centred_children_level USERS (mkSize 1000 800)
           (mkNode (mkUser "1" "Parent" None) (1000 / 2 - 160 / 2) 100 160 70)
           (tl (fst (computeLayout USERS (mkSize 1000 800)))) eq_refl).
Defined.



(** A layout is empty when no entity passes the root test, and otherwise
    has one more node than it has edges. *)
Theorem layout_is_a_tree (users : list User) (sz : Size) :
  if existsb rootless users
  then List.length (fst (computeLayout users sz))
       = S (List.length (snd (computeLayout users sz)))
  else computeLayout users sz = ([], []).
Proof.
  destruct (find rootless users) as [parent|] eqn:Hf.
  - assert (He : existsb rootless users = true).
    { apply existsb_exists. apply find_some in Hf. now exists parent. }
    rewrite He.
    destruct (tree_layout_lengths _ _ _ (tree_layout_root users sz parent Hf))
      as [H1 H2].
    now rewrite H1, H2.
  - assert (He : existsb rootless users = false).
    { destruct (existsb rootless users) eqn:E; [|reflexivity].
      apply existsb_exists in E. destruct E as (u & Hin & Hu).
      pose proof (find_none _ _ Hf u Hin). congruence. }
    rewrite He. unfold computeLayout.
    now rewrite (drawTree_no_root _ _ Hf).
Qed.

(** Only one level is drawn: the entity of every node is an entity of the
    input, and it is the selected root or has the root's id as its
    [parentId]; deeper descendants get no node. *)
Theorem nodes_are_root_or_child (users : list User) (sz : Size) :
  Forall
    (fun n =>
       In (entity n) users /\
       exists root,
         find rootless users = Some root /\
         (entity n = root \/ references root (entity n) = true))
    (fst (computeLayout users sz)).
Proof.
  apply Forall_forall. intros n Hin.
  destruct (find rootless users) as [parent|] eqn:Hf.
  - pose proof (tree_layout_root users sz parent Hf) as HT.
    assert (Hn : has_node (entity n) (computeLayout users sz))
      by now exists n.
    destruct (tree_layout_nodes _ _ _ _ HT Hn) as [-> | Hc].
    + split; [now apply find_some in Hf|]. exists parent. now split; [|left].
    + apply filter_In in Hc. destruct Hc as [Hu Hr].
      split; [exact Hu|]. exists parent. now split; [|right].
  - unfold computeLayout in Hin. rewrite (drawTree_no_root _ _ Hf) in Hin.
    destruct Hin.
Qed.

Lemma loop_shift (d c1 c2 py st1 st2 : Q) (children : list User) (index : Z) :
  c1 == c2 + d -> st1 == st2 + d ->
  Forall2 (node_shifted d)
    (nodes (forEach_from (loop_body c1 py st1) children index))
    (nodes (forEach_from (loop_body c2 py st2) children index)) /\
  Forall2 (edge_shifted d)
    (edges (forEach_from (loop_body c1 py st1) children index))
    (edges (forEach_from (loop_body c2 py st2) children index)).
Proof.
  intros Hc Hs. revert index.
  induction children as [|c rest IH]; intros index; simpl.
  - split; constructor.
  - destruct (IH (index + 1)%Z) as [IHn IHe].
    split; constructor; try assumption.
    + unfold node_shifted; cbn. repeat split. rewrite Hs. ring.
    + unfold edge_shifted; cbn. repeat split.
      * rewrite Hc. ring.
      * rewrite Hs. ring.
Qed.

(** A resize that widens the surface by [2 * d] moves the whole layout
    right by [d] and changes nothing else in it; the height plays no
    part. *)
Theorem resize_shifts_layout (users : list User) (s : State) (d h : Q) :
  Forall2 (node_shifted d)
    (fst (computeLayout users
            (size (handle s (onResize (width (size s) + 2 * d) h)))))
    (fst (computeLayout users (size s))) /\
  Forall2 (edge_shifted d)
    (snd (computeLayout users
            (size (handle s (onResize (width (size s) + 2 * d) h)))))
    (snd (computeLayout users (size s))).
Proof.
  cbn [handle handleResize setSize size]. unfold computeLayout. cbn [fst snd].
  destruct (find rootless users) as [parent|] eqn:Hf.
  - rewrite !(drawTree_root _ _ _ Hf).
    set (ch := filter (references parent) users).
    assert (Hr : root_x (mkSize (width (size s) + 2 * d) h)
                 == root_x (size s) + d)
      by (unfold root_x; cbn; field).
    assert (Hs : start_x (mkSize (width (size s) + 2 * d) h) ch
                 == start_x (size s) ch + d)
      by (unfold start_x; rewrite Hr; field).
    destruct (loop_shift d _ _ 100 _ _ ch 0 Hr Hs) as [Hn He].
    split.
    + cbn [nodes flat_map app]. constructor; [|exact Hn].
      unfold node_shifted; cbn. repeat split. exact Hr.
    + exact He.
  - rewrite !(drawTree_no_root _ _ Hf). split; constructor.
Qed.

(** The root test and the child test can both hold of the selected root,
    but only when its id and its [parentId] are the empty string; the root
    is then also drawn as a child of itself. *)
Theorem self_parent_root_is_its_child (users : list User) (sz : Size)
  (root : User) :
  find rootless users = Some root ->
  references root root = true ->
  id root = ""%string /\
  parentId root = Some ""%string /\
  exists rootNode childNodes,
    fst (computeLayout users sz) = rootNode :: childNodes /\
    entity rootNode = root /\
    In root (map entity childNodes).
Proof.
  intros Hf Hr.
  pose proof (find_some _ _ Hf) as [Hin Hroot].
  unfold references, strict_eq in Hr. unfold rootless, truthy in Hroot.
  destruct (parentId root) as [pid|] eqn:Hp; [|discriminate Hr].
  apply String.eqb_eq in Hr.
  apply negb_true_iff, negb_false_iff, String.eqb_eq in Hroot.
  subst pid. split; [now symmetry|]. split; [now rewrite Hroot|].
  destruct (tree_layout_root users sz root Hf) as (rn & cn & Hn & He & Hc & _).
  exists rn, cn. split; [exact Hn|]. split; [exact He|].
  rewrite Hc. apply filter_In. split; [exact Hin|].
  unfold references, strict_eq. rewrite Hp. now apply String.eqb_eq.
Qed.

Lemma self_parent_root_is_its_child_witness :
  find rootless [mkUser "" "Loop" (Some ""%string)]
  = Some (mkUser "" "Loop" (Some ""%string)) /\
  references (mkUser "" "Loop" (Some ""%string))
    (mkUser "" "Loop" (Some ""%string)) = true /\
  id (mkUser "" "Loop" (Some ""%string)) = ""%string /\
  parentId (mkUser "" "Loop" (Some ""%string)) = Some ""%string /\
  exists rootNode childNodes,
    fst (computeLayout [mkUser "" "Loop" (Some ""%string)] (mkSize 1000 800))
    = rootNode :: childNodes /\
    entity rootNode = mkUser "" "Loop" (Some ""%string) /\
    In (mkUser "" "Loop" (Some ""%string)) (map entity childNodes).
Proof.
  split; [reflexivity|]. split; [reflexivity|].
  exact (self_parent_root_is_its_child [mkUser "" "Loop" (Some ""%string)]
           (mkSize 1000 800) (mkUser "" "Loop" (Some ""%string))
           eq_refl eq_refl).
Defined.

(** ** More on zoom and pan *)

Lemma zoom_in_range_id (v : Q) :
  0.25 <= v -> v <= 4 -> Qmin 4 (Qmax 0.25 v) == v.
Proof.
  intros Hlo Hhi. rewrite (Q.max_r 0.25 v) by exact Hlo. now apply Q.min_r.
Qed.

Lemma zoom_wheel_scale (s : State) (d : Q) :
  scale (handle s (onWheel (mkWheel false d)))
  = Qmin 4 (Qmax 0.25 (scale s - d * 0.001)).
Proof. reflexivity. Qed.

(** Scrolling up never zooms out and scrolling down never zooms in. *)
Theorem zoom_follows_wheel (s : State) (d : Q) :
  0.25 <= scale s /\ scale s <= 4 ->
  (d <= 0 -> scale s <= scale (handle s (onWheel (mkWheel false d)))) /\
  (0 <= d -> scale (handle s (onWheel (mkWheel false d))) <= scale s).
Proof.
  intros [Hlo Hhi]. rewrite zoom_wheel_scale. split; intros Hd.
  - apply Q.min_glb; [exact Hhi|].
    apply Q.max_le_iff. right. lra.
  - apply Q.min_le_iff. right.
    apply Q.max_lub; [exact Hlo | lra].
Qed.

Lemma zoom_follows_wheel_witness :
  (0.25 <= scale (initial 1000 800) /\ scale (initial 1000 800) <= 4) /\
  (-120 <= 0 ->
   scale (initial 1000 800)
   <= scale (handle (initial 1000 800) (onWheel (mkWheel false (-120))))) /\
  (0 <= -120 ->
   scale (handle (initial 1000 800) (onWheel (mkWheel false (-120))))
   <= scale (initial 1000 800)).
Proof.
  assert (H1 : 0.25 <= scale (initial 1000 800) /\ scale (initial 1000 800) <= 4)
    by (split; discriminate).
  split; [exact H1|].
  exact (zoom_follows_wheel (initial 1000 800) (-120) H1).
Defined.

(** Overscroll is not remembered: once a wheel event has driven the scale
    to the upper limit, however far beyond it the raw value went, the next
    scroll down of [d] counts from 4. *)
Theorem overscroll_is_forgotten (s : State) (up d : Q) :
  4 <= scale s - up * 0.001 ->
  0 <= d -> 0.25 <= 4 - d * 0.001 ->
  scale (run s [onWheel (mkWheel false up); onWheel (mkWheel false d)])
  == 4 - d * 0.001.
Proof.
  intros Hup Hd Hlo.
  change (run s [onWheel (mkWheel false up); onWheel (mkWheel false d)])
    with (handle (handle s (onWheel (mkWheel false up)))
            (onWheel (mkWheel false d))).
  rewrite zoom_wheel_scale, zoom_wheel_scale.
  assert (H4 : Qmin 4 (Qmax 0.25 (scale s - up * 0.001)) == 4).
  { rewrite (Q.max_r 0.25 (scale s - up * 0.001)) by lra.
    now apply Q.min_l. }
  rewrite H4. apply zoom_in_range_id; lra.
Qed.

Lemma overscroll_is_forgotten_witness :
  4 <= scale (initial 1000 800) - (-9000) * 0.001 /\
  0 <= 500 /\
  0.25 <= 4 - 500 * 0.001 /\
  scale (run (initial 1000 800)
           [onWheel (mkWheel false (-9000)); onWheel (mkWheel false 500)])
  == 4 - 500 * 0.001.
Proof.
  assert (H1 : 4 <= scale (initial 1000 800) - (-9000) * 0.001) by discriminate.
  assert (H2 : 0 <= 500) by discriminate.
  assert (H3 : 0.25 <= 4 - 500 * 0.001) by discriminate.
  split; [exact H1|]. split; [exact H2|]. split; [exact H3|].
  exact (overscroll_is_forgotten (initial 1000 800) (-9000) 500 H1 H2 H3).
Defined.

Lemma scale_non_zoom (s : State) (ev : Event) :
  is_zoom ev = false -> scale (handle s ev) = scale s.
Proof.
  destruct ev as [e | e | e | | | w h]; cbn; intros H; try reflexivity.
  - unfold handleWheel. destruct (shiftKey e); [reflexivity | discriminate H].
  - unfold handleMouseMove. destruct (isDraggingRef s); reflexivity.
Qed.

Lemma scale_zoom (s t : State) (ev : Event) :
  is_zoom ev = true -> scale s = scale t ->
  scale (handle s ev) = scale (handle t ev).
Proof.
  destruct ev as [e | e | e | | | w h]; cbn; intros H Hs; try discriminate H.
  unfold handleWheel. destruct (shiftKey e); [discriminate H|].
  cbn. now rewrite Hs.
Qed.

(** The scale depends on the zooming wheel events alone: drags, moves,
    shift-wheel events and resizes can be left out of any history without
    changing it. *)
Theorem scale_depends_on_zoom_only (s : State) (evs : list Event) :
  scale (run s evs) = scale (run s (filter is_zoom evs)).
Proof.
  assert (G : forall (l : list Event) (a b : State),
             scale a = scale b ->
             scale (run a l) = scale (run b (filter is_zoom l))).
  { induction l as [|ev l IH]; intros a b Hab; cbn.
    - exact Hab.
    - destruct (is_zoom ev) eqn:E; cbn.
      + apply IH. now apply scale_zoom.
      + apply IH. now rewrite scale_non_zoom. }
  now apply G.
Qed.

(** The size is the one of the last resize, or the initial one when the
    window was never resized. *)
Theorem size_is_last_resize (s : State) (evs : list Event) :
  size (run s evs)
  = match last_resize evs with
    | Some sz => sz
    | None => size s
    end.
Proof.
  revert s. induction evs as [|ev evs IH]; intros s; [reflexivity|].
  change (run s (ev :: evs)) with (run (handle s ev) evs).
  rewrite IH. cbn [last_resize].
  destruct (last_resize evs); [reflexivity|].
  destruct ev as [e | e | e | | | w h]; cbn; try reflexivity.
  - unfold handleWheel. destruct (shiftKey e); reflexivity.
  - unfold handleMouseMove. destruct (isDraggingRef s); reflexivity.
Qed.

Lemma pan_other (s : State) (ev : Event) :
  (is_zoom ev || is_resize ev)%bool = true ->
  offset (handle s ev) = offset s /\
  isDraggingRef (handle s ev) = isDraggingRef s /\
  lastPosRef (handle s ev) = lastPosRef s.
Proof.
  destruct ev as [e | e | e | | | w h]; cbn; intros H; try discriminate H.
  - unfold handleWheel. destruct (shiftKey e); [discriminate H|].
    repeat split.
  - repeat split.
Qed.

Lemma pan_same (s t : State) (ev : Event) :
  offset s = offset t -> isDraggingRef s = isDraggingRef t ->
  lastPosRef s = lastPosRef t ->
  offset (handle s ev) = offset (handle t ev) /\
  isDraggingRef (handle s ev) = isDraggingRef (handle t ev) /\
  lastPosRef (handle s ev) = lastPosRef (handle t ev).
Proof.
  intros Ho Hd Hl.
  destruct ev as [e | e | e | | | w h]; cbn.
  - unfold handleWheel. destruct (shiftKey e); cbn; rewrite ?Ho; auto.
  - auto.
  - unfold handleMouseMove. rewrite Hd.
    destruct (isDraggingRef t) eqn:Et; cbn; rewrite ?Ho, ?Hl;
      repeat split; congruence.
  - auto.
  - auto.
  - auto.
Qed.

(** Zooming and resizing never pan: the offset, the drag flag and the
    anchor are what they would be had the zooming wheel events and the
    resizes not happened. *)
Theorem pan_ignores_zoom_and_resize (s : State) (evs : list Event) :
  offset (run s evs)
  = offset (run s (filter (fun ev => negb (is_zoom ev || is_resize ev)) evs)) /\
  isDraggingRef (run s evs)
  = isDraggingRef
      (run s (filter (fun ev => negb (is_zoom ev || is_resize ev)) evs)) /\
  lastPosRef (run s evs)
  = lastPosRef
      (run s (filter (fun ev => negb (is_zoom ev || is_resize ev)) evs)).
Proof.
  assert (G : forall (l : list Event) (a b : State),
             offset a = offset b -> isDraggingRef a = isDraggingRef b ->
             lastPosRef a = lastPosRef b ->
             offset (run a l)
             = offset (run b (filter (fun ev => negb (is_zoom ev || is_resize ev)) l)) /\
             isDraggingRef (run a l)
             = isDraggingRef
                 (run b (filter (fun ev => negb (is_zoom ev || is_resize ev)) l)) /\
             lastPosRef (run a l)
             = lastPosRef
                 (run b (filter (fun ev => negb (is_zoom ev || is_resize ev)) l))).
  { induction l as [|ev l IH]; intros a b Ho Hd Hl.
    - cbn. auto.
    - change (run a (ev :: l)) with (run (handle a ev) l).
      cbn [filter].
      destruct (is_zoom ev || is_resize ev)%bool eqn:E; cbn [negb].
      + destruct (pan_other a ev E) as (H1 & H2 & H3).
        apply IH; congruence.
      + change (run b (ev :: ?r)) with (run (handle b ev) r).
        destruct (pan_same a b ev Ho Hd Hl) as (H1 & H2 & H3).
        now apply IH. }
  now apply G.
Qed.

End CanvasBoard.
